(** * SimpleML: registry, pipeline steps and the persistable creators

    A shallow embedding of
      - [simpleml/persistables/meta_registry.py]   (class [Registry]),
      - [simpleml/pipelines/external_pipelines.py] ([SklearnPipeline]),
      - [simpleml/utils/training/create_persistable.py] (the six creators),
    followed by the properties of these functions. *)

From Stdlib Require Import Sorting.Sorted.
From stdpp Require Import gmap strings list fin_maps.

Set Warnings "-clear-no-such-hyp".

Open Scope string_scope.
Open Scope list_scope.
Open Scope Z_scope.

(** ** Python values *)

(** Scalars: what a database column or a plain keyword argument holds. *)
Inductive scalar :=
| SNone
| SBool (b : bool)
| SInt (z : Z)
| SStr (s : string).

#[global] Instance scalar_eq_dec : EqDecision scalar.
Proof. solve_decision. Defined.

(** The tables behind the declarative classes a creator returns as [cls]. *)
Inductive table :=
| BaseRawDataset
| BaseDatasetPipeline
| BaseProcessedDataset
| BaseProductionPipeline
| BaseModel
| BaseMetric.

#[global] Instance table_eq_dec : EqDecision table.
Proof. solve_decision. Defined.

(** A persistable object: the columns the creators read, and an opaque
    payload owned by the implementation. *)
Record persistable := Persistable {
  p_table : table;
  p_id : scalar;
  p_name : scalar;
  p_version : Z;
  p_registered_name : scalar;
  p_hash : scalar;
  p_dependency_id : scalar;
  p_payload : Z
}.

(** Keyword arguments nest: [raw_dataset_kwargs], [pipeline_kwargs], ... are
    dictionaries, and [raw_dataset], [pipeline], [model], ... are objects. *)
#[warnings="-register-all"]
Inductive value :=
| VScalar (s : scalar)
| VObj (o : persistable)
| VDict (d : gmap string value).

Abbreviation VNone := (VScalar SNone).
Abbreviation kwargs := (gmap string value).
Abbreviation filters := (gmap string value).

Definition is_None (v : value) : bool :=
  match v with VScalar SNone => true | _ => false end.

(** Python truth value of [v] (objects define neither [__bool__] nor
    [__len__]). *)
Definition truthy (v : value) : bool :=
  match v with
  | VScalar SNone => false
  | VScalar (SBool b) => b
  | VScalar (SInt z) => negb (z =? 0)
  | VScalar (SStr s) => negb (String.eqb s "")
  | VObj _ => true
  | VDict d => negb (bool_decide (d = ∅))
  end.

(** ** Exceptions and the world *)

Inductive error :=
| ValueError          (* Registry.__new__: duplicate class *)
| TrainingError       (* retrieve_dependency: expected dependency is missing *)
| KeyError (k : string)   (* dict.pop of an absent key *)
| TypeError           (* calling None, unpacking a non-mapping, a missing argument *)
| AttributeError      (* attribute read on a non-object *)
| IndexError          (* list index out of range *)
| UniquenessConflict  (* the (name, version) unique constraint of the store *)
| ImplementationError (* a failure inside an implementation's own method *).

#[global] Instance error_eq_dec : EqDecision error.
Proof. solve_decision. Defined.

Inductive result (A : Type) :=
| Ok (a : A)
| Raise (e : error).
Arguments Ok {A} a.
Arguments Raise {A} e.

(** What [type.__new__(cls, name, bases, attrs)] builds. *)
Record class := Class {
  c_name : string;            (* __name__ *)
  c_bases : list string;
  c_attrs : list (string * scalar)
}.

(** Calls that leave the creators: the implementation's methods and the
    store.  The log records them in order, oldest first. *)
Inductive event :=
| EvConstruct (c : class)
| EvAttach
| EvMaterialize            (* fit / build_dataframe / score *)
| EvHash
| EvQuery (t : table)
| EvLoad
| EvSave (t : table)
| EvConflict.

Definition is_write (e : event) : bool :=
  match e with EvSave _ | EvConflict => true | _ => false end.

Definition is_query (e : event) : bool :=
  match e with EvQuery _ => true | _ => false end.

Record world := World {
  registry : gmap string class;     (* Registry.registry *)
  store : list persistable;         (* the rows of all tables *)
  racers : list persistable;        (* rows concurrent writers commit during a save *)
  log : list event
}.

Definition set_registry (r : gmap string class) (w : world) : world :=
  World r (store w) (racers w) (log w).
Definition set_store (s : list persistable) (w : world) : world :=
  World (registry w) s (racers w) (log w).
Definition set_racers (s : list persistable) (w : world) : world :=
  World (registry w) (store w) s (log w).
Definition emit (e : event) (w : world) : world :=
  World (registry w) (store w) (racers w) (log w ++ [e]).

(** Stateful code that may raise: the state reached when the exception is
    raised is kept. *)
Definition M (A : Type) : Type := world -> result A * world.

Definition ret {A} (a : A) : M A := fun w => (Ok a, w).
Definition raise {A} (e : error) : M A := fun w => (Raise e, w).
Definition bind {A B} (m : M A) (f : A -> M B) : M B :=
  fun w => match m w with
           | (Ok a, w') => f a w'
           | (Raise e, w') => (Raise e, w')
           end.
Definition get_world : M world := fun w => (Ok w, w).
Definition tell (e : event) : M unit := fun w => (Ok tt, emit e w).
Definition lift_opt {A} (o : option A) : M A :=
  match o with Some a => ret a | None => raise ImplementationError end.

Notation "x <~ m ;; k" := (bind m (fun x => k))
  (at level 100, m at next level, right associativity).
Notation "m ;;; k" := (bind m (fun _ => k))
  (at level 100, right associativity).

(** ** The type registry ([meta_registry.py]) *)

Module Registry.

(** The metaclass [cls] that [__new__] receives: [Registry] itself or a
    metaclass derived from it, such as [MetaRegistry]. *)
Record metaclass := Metaclass { mc_name : string }.

Definition Registry_meta : metaclass := Metaclass "Registry".
Definition MetaRegistry : metaclass := Metaclass "MetaRegistry".

(**  new_cls = type.__new__(cls, name, bases, attrs)
     if cls.__name__ in cls.registry: raise ValueError(...)
     cls.registry[new_cls.__name__] = new_cls
     return new_cls *)
Definition __new__ (cls : metaclass) (name : string) (bases : list string)
    (attrs : list (string * scalar)) : M class :=
  let new_cls := Class name bases attrs in
  w <~ get_world ;;
  if bool_decide (mc_name cls ∈ dom (registry w))
  then raise ValueError
  else (fun w => (Ok new_cls, set_registry (<[c_name new_cls := new_cls]> (registry w)) w)).

Definition get_from_registry (class_name : string) (w : world) : option class :=
  registry w !! class_name.

Definition get (class_name : string) (w : world) : option class :=
  get_from_registry class_name w.

Definition is_registered (class_name : string) (w : world) : bool :=
  bool_decide (class_name ∈ dom (registry w)).

End Registry.

(** ** Pipeline steps ([external_pipelines.py]) *)

Module SklearnPipeline.
Section Steps.

Variable transformer : Type.

Definition step : Type := string * transformer.

(** [enumerate(self.steps)] *)
Fixpoint enumerate_from (i : nat) (steps : list step) : list (nat * step) :=
  match steps with
  | [] => []
  | j :: rest => (i, j) :: enumerate_from (S i) rest
  end.

Definition enumerate (steps : list step) : list (nat * step) :=
  enumerate_from 0 steps.

(** [list.pop(index)] for a non-negative index: the list without that
    position, or IndexError when it is out of range. *)
Fixpoint pop (index : nat) (steps : list step) : result (list step) :=
  match steps, index with
  | [], _ => Raise IndexError
  | _ :: rest, O => Ok rest
  | j :: rest, S i =>
      match pop i rest with
      | Ok rest' => Ok (j :: rest')
      | Raise e => Raise e
      end
  end.

(**  index = [i for i, j in enumerate(self.steps) if j[0] == name][0]
     self.steps.pop(index)
    The result is the new content of [self.steps]. *)
Definition remove_transformer (name : string) (steps : list step)
    : result (list step) :=
  match List.map fst
          (List.filter (fun ij => bool_decide (fst (snd ij) = name))
                       (enumerate steps)) with
  | [] => Raise IndexError
  | index :: _ => pop index steps
  end.

(** The methods of the transformers that the pipeline calls. *)
Variable class_name : transformer -> string.        (* j.__class__.__name__ *)
Variable tr_get_feature_names : transformer -> list string -> list string.

(** Where [list.insert(index, x)] puts [x] in a list of length [n]: a
    negative index counts from the end, and an index outside the list is
    clamped to its ends. *)
Definition insert_position (index : Z) (n : nat) : nat :=
  if index <? 0 then Z.to_nat (Z.max 0 (index + Z.of_nat n))
  else Z.to_nat (Z.min index (Z.of_nat n)).

(**  if index is not None:
         self.steps.insert(index, (name, transformer))
     else:
         self.steps.append((name, transformer))  *)
Definition add_transformer (name : string) (t : transformer)
    (index : option Z) (steps : list step) : list step :=
  match index with
  | Some index =>
      let k := insert_position index (length steps) in
      take k steps ++ (name, t) :: drop k steps
  | None => steps ++ [(name, t)]
  end.

(**  return [(i, j.__class__.__name__) for i, j in self.steps]  *)
Definition get_transformers (steps : list step) : list (string * string) :=
  List.map (fun ij => (fst ij, class_name (snd ij))) steps.

(**  for step, transformer in self.steps:
         feature_names = transformer.get_feature_names(feature_names)
     return feature_names  *)
Definition get_feature_names (steps : list step) (feature_names : list string)
    : list string :=
  fold_left (fun names st => tr_get_feature_names (snd st) names)
    steps feature_names.

End Steps.
End SklearnPipeline.

(** ** The default pipeline ([external_pipelines.py]) *)

(** [DefaultPipeline] is an [OrderedDict]: its items in insertion order,
    with pairwise distinct keys.  A transformer method that raises is
    [None]. *)
Module DefaultPipeline.
Section Items.

Variables (transformer X params : Type).
Variable tr_fit_transform : transformer -> X -> option (transformer * X).
Variable tr_transform : transformer -> X -> option X.
Variable tr_get_params : transformer -> params.
Variable tr_set_params : transformer -> params -> option transformer.

Definition items : Type := list (string * transformer).

(** [self[name] = transformer]: a key that is present keeps its place. *)
Fixpoint setitem (name : string) (t : transformer) (d : items) : items :=
  match d with
  | [] => [(name, t)]
  | (k, v) :: rest =>
      if bool_decide (k = name) then (k, t) :: rest
      else (k, v) :: setitem name t rest
  end.

(** [del self[name]] *)
Fixpoint delitem (name : string) (d : items) : result items :=
  match d with
  | [] => Raise (KeyError name)
  | (k, v) :: rest =>
      if bool_decide (k = name) then Ok rest
      else match delitem name rest with
           | Ok rest' => Ok ((k, v) :: rest')
           | Raise e => Raise e
           end
  end.

(** [self[name]] *)
Fixpoint getitem (name : string) (d : items) : result transformer :=
  match d with
  | [] => Raise (KeyError name)
  | (k, v) :: rest => if bool_decide (k = name) then Ok v else getitem name rest
  end.

(**  self[name] = transformer  *)
Definition add_transformer (name : string) (t : transformer) (d : items) : items :=
  setitem name t d.

(**  del self[name]  *)
Definition remove_transformer (name : string) (d : items) : result items :=
  delitem name d.

(**  for step, transformer in self.iteritems():
         X = transformer.fit_transform(X, y=y, kwargs)
     return self
    The result is the pipeline with its transformers as the calls left
    them, and whether a call raised. *)
Fixpoint fit (d : items) (x : X) : items * result unit :=
  match d with
  | [] => ([], Ok tt)
  | (k, t) :: rest =>
      match tr_fit_transform t x with
      | None => (d, Raise ImplementationError)
      | Some (t', x') =>
          let (rest', r) := fit rest x' in ((k, t') :: rest', r)
      end
  end.

(**  for step, transformer in self.iteritems():
         X = transformer.fit_transform(X, y=y, kwargs)
     return X  *)
Fixpoint fit_transform (d : items) (x : X) : items * result X :=
  match d with
  | [] => ([], Ok x)
  | (k, t) :: rest =>
      match tr_fit_transform t x with
      | None => (d, Raise ImplementationError)
      | Some (t', x') =>
          let (rest', r) := fit_transform rest x' in ((k, t') :: rest', r)
      end
  end.

(**  for step, transformer in self.iteritems():
         X = transformer.transform(X, y=y, kwargs)
     return X  *)
Fixpoint transform (d : items) (x : X) : result X :=
  match d with
  | [] => Ok x
  | (k, t) :: rest =>
      match tr_transform t x with
      | None => Raise ImplementationError
      | Some x' => transform rest x'
      end
  end.

(**  params = {}
     for step, transformer in self.iteritems():
         params[step] = transformer.get_params(kwargs)
     return params  *)
Definition get_params (d : items) : gmap string params :=
  fold_left (fun ps st => <[fst st := tr_get_params (snd st)]> ps) d ∅.

(**  for step, param in params.iteritems():
         self[step].set_params(param)
    [ps] lists the items of [params] in iteration order. *)
Fixpoint set_params (ps : list (string * params)) (d : items)
    : items * result unit :=
  match ps with
  | [] => (d, Ok tt)
  | (step, param) :: ps' =>
      match getitem step d with
      | Raise e => (d, Raise e)
      | Ok t =>
          match tr_set_params t param with
          | None => (d, Raise ImplementationError)
          | Some t' => set_params ps' (setitem step t' d)
          end
      end
  end.

End Items.
End DefaultPipeline.

(** ** The artifact store *)

Module Store.

(** The foreign-key column of each table. *)
Definition dependency_column (t : table) : option string :=
  match t with
  | BaseRawDataset => None
  | BaseDatasetPipeline => Some "dataset_id"
  | BaseProcessedDataset => Some "pipeline_id"
  | BaseProductionPipeline => Some "dataset_id"
  | BaseModel => Some "pipeline_id"
  | BaseMetric => Some "model_id"
  end.

Definition columns (r : persistable) : gmap string scalar :=
  let base : gmap string scalar :=
    {[ "id" := p_id r; "name" := p_name r; "version" := SInt (p_version r);
       "registered_name" := p_registered_name r; "hash_" := p_hash r ]} in
  match dependency_column (p_table r) with
  | Some k => <[k := p_dependency_id r]> base
  | None => base
  end.

(** One [column == value] condition of the [where] clause. *)
Definition condition (r : persistable) (kv : string * value) : bool :=
  match columns r !! fst kv, snd kv with
  | Some c, VScalar s => bool_decide (c = s)
  | _, _ => false
  end.

Definition row_matches (cls : table) (f : filters) (r : persistable) : bool :=
  bool_decide (p_table r = cls) && forallb (condition r) (map_to_list f).

(** [cls.where] applied to the unpacked filters. *)
Definition where_ (cls : table) (f : filters) (rows : list persistable)
    : list persistable :=
  List.filter (row_matches cls f) rows.

(** [.order_by(cls.version.desc())]: insertion into a list that is
    already in descending order of version. *)
Fixpoint insert_desc (r : persistable) (rows : list persistable)
    : list persistable :=
  match rows with
  | [] => [r]
  | x :: rest =>
      if p_version x <? p_version r then r :: x :: rest
      else x :: insert_desc r rest
  end.

Definition order_by_version_desc (rows : list persistable) : list persistable :=
  foldr insert_desc [] rows.

(** [.first()] *)
Definition first (rows : list persistable) : option persistable := head rows.

(** Modelled from the spec: version allocation of [save] (section 4.3),
    which lives in the persistable base class: one more than the largest
    version stored under the same name in the table, 1 when there is
    none. *)
Definition next_version (t : table) (name : scalar) (rows : list persistable) : Z :=
  1 + foldr Z.max 0
        (List.map p_version
           (List.filter (fun r => bool_decide (p_table r = t) &&
                                  bool_decide (p_name r = name)) rows)).

Definition same_key (p r : persistable) : bool :=
  bool_decide (p_table r = p_table p) && bool_decide (p_name r = p_name p)
  && bool_decide (p_version r = p_version p).

(** Modelled from the spec: [persist] of the store (sections 5 and 6),
    which enforces the [(name, version)] unique constraint of each table.
    The rows of concurrent writers ([racers]) are committed before the
    insert is attempted. *)
Definition persist (p : persistable) : M persistable :=
  fun w =>
    let rows := store w ++ racers w in
    let w1 := emit (EvSave (p_table p)) (set_racers [] (set_store rows w)) in
    if existsb (same_key p) rows
    then (Raise UniquenessConflict, emit EvConflict w1)
    else (Ok p, set_store (rows ++ [p]) w1).

End Store.

(** ** The creators ([create_persistable.py]) *)

(** The methods of the registered implementations.  They are defined in the
    persistable base classes and their subclasses; [None] stands for an
    exception raised inside the method. *)
Record implementation := Implementation {
  construct : class -> kwargs -> option persistable;     (* calling the class *)
  add_dataset : persistable -> value -> option persistable;
  add_pipeline : persistable -> value -> option persistable;
  add_model : persistable -> value -> option persistable;
  fit : persistable -> option persistable;
  build_dataframe : persistable -> option persistable;
  score : persistable -> option persistable;
  _hash : persistable -> option scalar;
  load : persistable -> option persistable
}.

Inductive creator :=
| RawDatasetCreator
| DatasetPipelineCreator
| DatasetCreator
| PipelineCreator
| ModelCreator
| MetricCreator.

#[global] Instance creator_eq_dec : EqDecision creator.
Proof. solve_decision. Defined.

(** Binding of a keyword parameter with a default, and the keyword
    arguments left for the double-star parameter. *)
Definition arg (k : string) (dflt : value) (kw : kwargs) : value :=
  default dflt (kw !! k).

Definition rest (ks : list string) (kw : kwargs) : kwargs :=
  foldr delete kw ks.

(** [kwargs.pop(k)]: KeyError when the key is absent. *)
Definition pop (k : string) (kw : kwargs) : M (value * kwargs) :=
  match kw !! k with
  | Some v => ret (v, delete k kw)
  | None => raise (KeyError k)
  end.

(** [kwargs.pop(k, dflt)] *)
Definition pop_default (k : string) (dflt : value) (kw : kwargs) : value * kwargs :=
  (default dflt (kw !! k), delete k kw).

(** Unpacking a value with the double star: it has to be a mapping. *)
Definition unpack (v : value) : M kwargs :=
  match v with
  | VDict d => ret d
  | _ => raise TypeError
  end.

(** [obj.id] *)
Definition get_id (v : value) : M value :=
  match v with
  | VObj o => ret (VScalar (p_id o))
  | _ => raise AttributeError
  end.

(** [SIMPLEML_REGISTRY.get(registered_name)]: the class, or None.  The
    keys of the registry are strings; a dictionary is not hashable. *)
Definition registry_get (registered_name : value) : M (option class) :=
  match registered_name with
  | VScalar (SStr s) => fun w => (Ok (Registry.get s w), w)
  | VDict _ => raise TypeError
  | _ => ret None
  end.

(** A call of an implementation method, recorded in the log. *)
Definition call {A} (e : event) (r : option A) : M A :=
  tell e ;;; lift_opt r.

Section Creators.

Variable impl : implementation.

(** Calling what the registry returned with keyword arguments: None is
    not callable. *)
Definition instantiate (c : option class) (kw : kwargs) : M persistable :=
  match c with
  | None => raise TypeError
  | Some c => call (EvConstruct c) (construct impl c kw)
  end.

(** Modelled from the spec: [save] of the persistable base class (section 3,
    lifecycle): compute the hash, assign the version, persist. *)
Definition save (p : persistable) : M persistable :=
  h <~ call EvHash (_hash impl p) ;;
  w <~ get_world ;;
  Store.persist
    (Persistable (p_table p) (p_id p) (p_name p)
       (Store.next_version (p_table p) (p_name p) (store w))
       (p_registered_name p) h (p_dependency_id p) (p_payload p)).

(**  return cls.where(filters).order_by(cls.version.desc()).first()  *)
Definition retrieve (cls : table) (f : filters) : M (option persistable) :=
  tell (EvQuery cls) ;;;
  w <~ get_world ;;
  ret (Store.first (Store.order_by_version_desc (Store.where_ cls f (store w)))).

(**  dependency = dependency_cls.retrieve(
         *dependency_cls.determine_filters(dependency_kwargs))
     if dependency is None: raise TrainingError(...)
     dependency.load()
     return dependency
    [dependency_cls] is given by its [determine_filters]; [retrieve] is
    the static method of the base class. *)
Definition retrieve_dependency
    (dependency_cls : kwargs -> M (table * filters))
    (dependency_kwargs : kwargs) : M persistable :=
  cf <~ dependency_cls dependency_kwargs ;;
  dependency <~ retrieve (fst cf) (snd cf) ;;
  match dependency with
  | None => raise TrainingError
  | Some dependency => call EvLoad (load impl dependency)
  end.

(** *** RawDatasetCreator *)

(**  def determine_filters(name='', version=None, strict=True, kwargs)  *)
Definition RawDatasetCreator_determine_filters (kw : kwargs) : M (table * filters) :=
  let name := arg "name" (VScalar (SStr "")) kw in
  let version := arg "version" VNone kw in
  let strict := arg "strict" (VScalar (SBool true)) kw in
  let kwargs := rest ["name"; "version"; "strict"] kw in
  if negb (is_None version) then
    ret (BaseRawDataset, {[ "name" := name; "version" := version ]})
  else if truthy strict then
    let registered_name := arg "registered_name" VNone kwargs in
    c <~ registry_get registered_name ;;
    new_dataset <~ instantiate c (<["name" := name]> kwargs) ;;
    h <~ call EvHash (_hash impl new_dataset) ;;
    ret (BaseRawDataset,
         {[ "name" := name; "registered_name" := registered_name;
            "hash_" := VScalar h ]})
  else
    ret (BaseRawDataset,
         {[ "name" := name;
            "registered_name" := arg "registered_name" VNone kwargs ]}).

(**  def create_new(registered_name, kwargs)  *)
Definition RawDatasetCreator_create_new (kw : kwargs) : M persistable :=
  match kw !! "registered_name" with
  | None => raise TypeError
  | Some registered_name =>
      let kwargs := rest ["registered_name"] kw in
      c <~ registry_get registered_name ;;
      new_dataset <~ instantiate c kwargs ;;
      new_dataset <~ call EvMaterialize (build_dataframe impl new_dataset) ;;
      save new_dataset
  end.

(** *** DatasetPipelineCreator *)

Definition DatasetPipelineCreator_retrieve_dataset (dataset_kwargs : kwargs)
    : M persistable :=
  retrieve_dependency RawDatasetCreator_determine_filters dataset_kwargs.

(**  def determine_filters(cls, name='', version=None, strict=False, kwargs)  *)
Definition DatasetPipelineCreator_determine_filters (kw : kwargs)
    : M (table * filters) :=
  let name := arg "name" (VScalar (SStr "")) kw in
  let version := arg "version" VNone kw in
  let strict := arg "strict" (VScalar (SBool false)) kw in
  let kwargs := rest ["name"; "version"; "strict"] kw in
  if negb (is_None version) then
    ret (BaseDatasetPipeline, {[ "name" := name; "version" := version ]})
  else
    let '(dataset, kwargs) := pop_default "raw_dataset" VNone kwargs in
    dk <~ (if is_None dataset then
             let '(raw_dataset_kwargs, kwargs) :=
               pop_default "raw_dataset_kwargs" (VDict ∅) kwargs in
             d <~ unpack raw_dataset_kwargs ;;
             dataset <~ DatasetPipelineCreator_retrieve_dataset d ;;
             ret (VObj dataset, kwargs)
           else ret (dataset, kwargs)) ;;
    let '(dataset, kwargs) := dk in
    rk <~ pop "registered_name" kwargs ;;
    let '(registered_name, kwargs) := rk in
    c <~ registry_get registered_name ;;
    new_pipeline <~ instantiate c (<["name" := name]> kwargs) ;;
    new_pipeline <~ call EvAttach (add_dataset impl new_pipeline dataset) ;;
    new_pipeline <~ (if truthy strict
                     then call EvMaterialize (fit impl new_pipeline)
                     else ret new_pipeline) ;;
    h <~ call EvHash (_hash impl new_pipeline) ;;
    ret (BaseDatasetPipeline,
         {[ "name" := name; "registered_name" := registered_name;
            "hash_" := VScalar h ]}).

(**  def create_new(cls, registered_name, raw_dataset=None, kwargs)  *)
Definition DatasetPipelineCreator_create_new (kw : kwargs) : M persistable :=
  match kw !! "registered_name" with
  | None => raise TypeError
  | Some registered_name =>
      let raw_dataset := arg "raw_dataset" VNone kw in
      let kwargs := rest ["registered_name"; "raw_dataset"] kw in
      dk <~ (if is_None raw_dataset then
               let '(raw_dataset_kwargs, kwargs) :=
                 pop_default "raw_dataset_kwargs" (VDict ∅) kwargs in
               d <~ unpack raw_dataset_kwargs ;;
               raw_dataset <~ DatasetPipelineCreator_retrieve_dataset d ;;
               ret (VObj raw_dataset, kwargs)
             else ret (raw_dataset, kwargs)) ;;
      let '(raw_dataset, kwargs) := dk in
      c <~ registry_get registered_name ;;
      new_pipeline <~ instantiate c kwargs ;;
      new_pipeline <~ call EvAttach (add_dataset impl new_pipeline raw_dataset) ;;
      new_pipeline <~ call EvMaterialize (fit impl new_pipeline) ;;
      save new_pipeline
  end.

(** *** DatasetCreator *)

Definition DatasetCreator_retrieve_pipeline (pipeline_kwargs : kwargs)
    : M persistable :=
  retrieve_dependency DatasetPipelineCreator_determine_filters pipeline_kwargs.

(**  def determine_filters(cls, name='', version=None, strict=True, kwargs)  *)
Definition DatasetCreator_determine_filters (kw : kwargs) : M (table * filters) :=
  let name := arg "name" (VScalar (SStr "")) kw in
  let version := arg "version" VNone kw in
  let strict := arg "strict" (VScalar (SBool true)) kw in
  let kwargs := rest ["name"; "version"; "strict"] kw in
  if negb (is_None version) then
    ret (BaseProcessedDataset, {[ "name" := name; "version" := version ]})
  else
    rk <~ pop "registered_name" kwargs ;;
    let '(registered_name, kwargs) := rk in
    let '(dataset_pipeline, kwargs) := pop_default "dataset_pipeline" VNone kwargs in
    dk <~ (if is_None dataset_pipeline then
             let '(dataset_pipeline_kwargs, kwargs) :=
               pop_default "dataset_pipeline_kwargs" (VDict ∅) kwargs in
             d <~ unpack dataset_pipeline_kwargs ;;
             dataset_pipeline <~ DatasetCreator_retrieve_pipeline d ;;
             ret (VObj dataset_pipeline, kwargs)
           else ret (dataset_pipeline, kwargs)) ;;
    let '(dataset_pipeline, kwargs) := dk in
    if truthy strict then
      c <~ registry_get registered_name ;;
      new_dataset <~ instantiate c (<["name" := name]> kwargs) ;;
      new_dataset <~ call EvAttach (add_pipeline impl new_dataset dataset_pipeline) ;;
      new_dataset <~ call EvMaterialize (build_dataframe impl new_dataset) ;;
      h <~ call EvHash (_hash impl new_dataset) ;;
      ret (BaseProcessedDataset,
           {[ "name" := name; "registered_name" := registered_name;
              "hash_" := VScalar h ]})
    else
      pipeline_id <~ get_id dataset_pipeline ;;
      ret (BaseProcessedDataset,
           {[ "name" := name; "registered_name" := registered_name;
              "pipeline_id" := pipeline_id ]}).

(**  def create_new(cls, registered_name, dataset_pipeline=None, kwargs)  *)
Definition DatasetCreator_create_new (kw : kwargs) : M persistable :=
  match kw !! "registered_name" with
  | None => raise TypeError
  | Some registered_name =>
      let dataset_pipeline := arg "dataset_pipeline" VNone kw in
      let kwargs := rest ["registered_name"; "dataset_pipeline"] kw in
      dk <~ (if is_None dataset_pipeline then
               let '(dataset_pipeline_kwargs, kwargs) :=
                 pop_default "dataset_pipeline_kwargs" (VDict ∅) kwargs in
               d <~ unpack dataset_pipeline_kwargs ;;
               dataset_pipeline <~ DatasetCreator_retrieve_pipeline d ;;
               ret (VObj dataset_pipeline, kwargs)
             else ret (dataset_pipeline, kwargs)) ;;
      let '(dataset_pipeline, kwargs) := dk in
      c <~ registry_get registered_name ;;
      new_dataset <~ instantiate c kwargs ;;
      new_dataset <~ call EvAttach (add_pipeline impl new_dataset dataset_pipeline) ;;
      new_dataset <~ call EvMaterialize (build_dataframe impl new_dataset) ;;
      save new_dataset
  end.

(** *** PipelineCreator *)

Definition PipelineCreator_retrieve_dataset (dataset_kwargs : kwargs)
    : M persistable :=
  retrieve_dependency DatasetCreator_determine_filters dataset_kwargs.

(**  def determine_filters(cls, name='', version=None, strict=False, kwargs)  *)
Definition PipelineCreator_determine_filters (kw : kwargs) : M (table * filters) :=
  let name := arg "name" (VScalar (SStr "")) kw in
  let version := arg "version" VNone kw in
  let strict := arg "strict" (VScalar (SBool false)) kw in
  let kwargs := rest ["name"; "version"; "strict"] kw in
  if negb (is_None version) then
    ret (BaseProductionPipeline, {[ "name" := name; "version" := version ]})
  else
    let '(dataset, kwargs) := pop_default "dataset" VNone kwargs in
    dk <~ (if is_None dataset then
             let '(dataset_kwargs, kwargs) :=
               pop_default "dataset_kwargs" (VDict ∅) kwargs in
             d <~ unpack dataset_kwargs ;;
             dataset <~ PipelineCreator_retrieve_dataset d ;;
             ret (VObj dataset, kwargs)
           else ret (dataset, kwargs)) ;;
    let '(dataset, kwargs) := dk in
    rk <~ pop "registered_name" kwargs ;;
    let '(registered_name, kwargs) := rk in
    c <~ registry_get registered_name ;;
    new_pipeline <~ instantiate c (<["name" := name]> kwargs) ;;
    new_pipeline <~ call EvAttach (add_dataset impl new_pipeline dataset) ;;
    new_pipeline <~ (if truthy strict
                     then call EvMaterialize (fit impl new_pipeline)
                     else ret new_pipeline) ;;
    h <~ call EvHash (_hash impl new_pipeline) ;;
    ret (BaseProductionPipeline,
         {[ "name" := name; "registered_name" := registered_name;
            "hash_" := VScalar h ]}).

(**  def create_new(cls, registered_name, dataset=None, kwargs)  *)
Definition PipelineCreator_create_new (kw : kwargs) : M persistable :=
  match kw !! "registered_name" with
  | None => raise TypeError
  | Some registered_name =>
      let dataset := arg "dataset" VNone kw in
      let kwargs := rest ["registered_name"; "dataset"] kw in
      dk <~ (if is_None dataset then
               let '(dataset_kwargs, kwargs) :=
                 pop_default "dataset_kwargs" (VDict ∅) kwargs in
               d <~ unpack dataset_kwargs ;;
               dataset <~ PipelineCreator_retrieve_dataset d ;;
               ret (VObj dataset, kwargs)
             else ret (dataset, kwargs)) ;;
      let '(dataset, kwargs) := dk in
      c <~ registry_get registered_name ;;
      new_pipeline <~ instantiate c kwargs ;;
      new_pipeline <~ call EvAttach (add_dataset impl new_pipeline dataset) ;;
      new_pipeline <~ call EvMaterialize (fit impl new_pipeline) ;;
      save new_pipeline
  end.

(** *** ModelCreator *)

Definition ModelCreator_retrieve_pipeline (pipeline_kwargs : kwargs)
    : M persistable :=
  retrieve_dependency PipelineCreator_determine_filters pipeline_kwargs.

(**  def determine_filters(cls, name='', version=None, strict=False, kwargs)  *)
Definition ModelCreator_determine_filters (kw : kwargs) : M (table * filters) :=
  let name := arg "name" (VScalar (SStr "")) kw in
  let version := arg "version" VNone kw in
  let strict := arg "strict" (VScalar (SBool false)) kw in
  let kwargs := rest ["name"; "version"; "strict"] kw in
  if negb (is_None version) then
    ret (BaseModel, {[ "name" := name; "version" := version ]})
  else
    let '(pipeline, kwargs) := pop_default "pipeline" VNone kwargs in
    dk <~ (if is_None pipeline then
             let '(pipeline_kwargs, kwargs) :=
               pop_default "pipeline_kwargs" (VDict ∅) kwargs in
             d <~ unpack pipeline_kwargs ;;
             pipeline <~ ModelCreator_retrieve_pipeline d ;;
             ret (VObj pipeline, kwargs)
           else ret (pipeline, kwargs)) ;;
    let '(pipeline, kwargs) := dk in
    rk <~ pop "registered_name" kwargs ;;
    let '(registered_name, kwargs) := rk in
    c <~ registry_get registered_name ;;
    new_model <~ instantiate c (<["name" := name]> kwargs) ;;
    new_model <~ call EvAttach (add_pipeline impl new_model pipeline) ;;
    new_model <~ (if truthy strict
                  then call EvMaterialize (fit impl new_model)
                  else ret new_model) ;;
    h <~ call EvHash (_hash impl new_model) ;;
    ret (BaseModel,
         {[ "name" := name; "registered_name" := registered_name;
            "hash_" := VScalar h ]}).

(**  def create_new(cls, registered_name, pipeline=None, kwargs)  *)
Definition ModelCreator_create_new (kw : kwargs) : M persistable :=
  match kw !! "registered_name" with
  | None => raise TypeError
  | Some registered_name =>
      let pipeline := arg "pipeline" VNone kw in
      let kwargs := rest ["registered_name"; "pipeline"] kw in
      dk <~ (if is_None pipeline then
               let '(pipeline_kwargs, kwargs) :=
                 pop_default "pipeline_kwargs" (VDict ∅) kwargs in
               d <~ unpack pipeline_kwargs ;;
               pipeline <~ ModelCreator_retrieve_pipeline d ;;
               ret (VObj pipeline, kwargs)
             else ret (pipeline, kwargs)) ;;
      let '(pipeline, kwargs) := dk in
      c <~ registry_get registered_name ;;
      new_model <~ instantiate c kwargs ;;
      new_model <~ call EvAttach (add_pipeline impl new_model pipeline) ;;
      new_model <~ call EvMaterialize (fit impl new_model) ;;
      save new_model
  end.

(** *** MetricCreator *)

Definition MetricCreator_retrieve_model (model_kwargs : kwargs) : M persistable :=
  retrieve_dependency ModelCreator_determine_filters model_kwargs.

(**  def determine_filters(cls, name=None, model_id=None, strict=False, kwargs)  *)
Definition MetricCreator_determine_filters (kw : kwargs) : M (table * filters) :=
  let name := arg "name" VNone kw in
  let model_id := arg "model_id" VNone kw in
  let strict := arg "strict" (VScalar (SBool false)) kw in
  let kwargs := rest ["name"; "model_id"; "strict"] kw in
  if negb (is_None name) && negb (is_None model_id) then
    ret (BaseMetric, {[ "name" := name; "model_id" := model_id ]})
  else
    let '(model, kwargs) := pop_default "model" VNone kwargs in
    dk <~ (if is_None model then
             let '(model_kwargs, kwargs) :=
               pop_default "model_kwargs" (VDict ∅) kwargs in
             d <~ unpack model_kwargs ;;
             model <~ MetricCreator_retrieve_model d ;;
             ret (VObj model, kwargs)
           else ret (model, kwargs)) ;;
    let '(model, kwargs) := dk in
    rk <~ pop "registered_name" kwargs ;;
    let '(registered_name, kwargs) := rk in
    c <~ registry_get registered_name ;;
    new_metric <~ instantiate c (<["name" := name]> kwargs) ;;
    new_metric <~ call EvAttach (add_model impl new_metric model) ;;
    new_metric <~ (if truthy strict
                   then call EvMaterialize (score impl new_metric)
                   else ret new_metric) ;;
    h <~ call EvHash (_hash impl new_metric) ;;
    ret (BaseMetric,
         {[ "name" := VScalar (p_name new_metric);
            "registered_name" := registered_name;
            "hash_" := VScalar h ]}).

(**  def create_new(cls, registered_name, model=None, kwargs)  *)
Definition MetricCreator_create_new (kw : kwargs) : M persistable :=
  match kw !! "registered_name" with
  | None => raise TypeError
  | Some registered_name =>
      let model := arg "model" VNone kw in
      let kwargs := rest ["registered_name"; "model"] kw in
      dk <~ (if is_None model then
               let '(model_kwargs, kwargs) :=
                 pop_default "model_kwargs" (VDict ∅) kwargs in
               d <~ unpack model_kwargs ;;
               model <~ MetricCreator_retrieve_model d ;;
               ret (VObj model, kwargs)
             else ret (model, kwargs)) ;;
      let '(model, kwargs) := dk in
      c <~ registry_get registered_name ;;
      new_metric <~ instantiate c kwargs ;;
      new_metric <~ call EvAttach (add_model impl new_metric model) ;;
      new_metric <~ call EvMaterialize (score impl new_metric) ;;
      save new_metric
  end.

(** *** The shared entry point *)

(** Method resolution on the creator class. *)
Definition determine_filters (self : creator) : kwargs -> M (table * filters) :=
  match self with
  | RawDatasetCreator => RawDatasetCreator_determine_filters
  | DatasetPipelineCreator => DatasetPipelineCreator_determine_filters
  | DatasetCreator => DatasetCreator_determine_filters
  | PipelineCreator => PipelineCreator_determine_filters
  | ModelCreator => ModelCreator_determine_filters
  | MetricCreator => MetricCreator_determine_filters
  end.

Definition create_new (self : creator) : kwargs -> M persistable :=
  match self with
  | RawDatasetCreator => RawDatasetCreator_create_new
  | DatasetPipelineCreator => DatasetPipelineCreator_create_new
  | DatasetCreator => DatasetCreator_create_new
  | PipelineCreator => PipelineCreator_create_new
  | ModelCreator => ModelCreator_create_new
  | MetricCreator => MetricCreator_create_new
  end.

(**  cls, filters = self.determine_filters(kwargs)
     persistable = self.retrieve(cls, filters)
     if persistable is not None:
         persistable.load()
         return persistable
     else:
         persistable = self.create_new(kwargs)
         return persistable  *)
Definition retrieve_or_create (self : creator) (kw : kwargs) : M persistable :=
  cf <~ determine_filters self kw ;;
  let '(cls, filters) := cf in
  persistable <~ retrieve cls filters ;;
  match persistable with
  | Some persistable => call EvLoad (load impl persistable)
  | None => create_new self kw
  end.

End Creators.

Arguments SklearnPipeline.remove_transformer {transformer} name steps.
Arguments SklearnPipeline.enumerate_from {transformer} i steps.
Arguments SklearnPipeline.enumerate {transformer} steps.
Arguments SklearnPipeline.pop {transformer} index steps.
Arguments SklearnPipeline.add_transformer {transformer} name t index steps.
Arguments SklearnPipeline.get_transformers {transformer} class_name steps.
Arguments SklearnPipeline.get_feature_names {transformer}
  tr_get_feature_names steps feature_names.
Arguments DefaultPipeline.setitem {transformer} name t d.
Arguments DefaultPipeline.delitem {transformer} name d.
Arguments DefaultPipeline.getitem {transformer} name d.
Arguments DefaultPipeline.add_transformer {transformer} name t d.
Arguments DefaultPipeline.remove_transformer {transformer} name d.
Arguments DefaultPipeline.fit {transformer X} tr_fit_transform d x.
Arguments DefaultPipeline.fit_transform {transformer X} tr_fit_transform d x.
Arguments DefaultPipeline.transform {transformer X} tr_transform d x.
Arguments DefaultPipeline.get_params {transformer params} tr_get_params d.
Arguments DefaultPipeline.set_params {transformer params} tr_set_params ps d.

(** ** A small concrete implementation, used to run the creators *)

Module Demo.

Definition table_of_base (b : string) : table :=
  if String.eqb b "BaseRawDataset" then BaseRawDataset
  else if String.eqb b "BaseDatasetPipeline" then BaseDatasetPipeline
  else if String.eqb b "BaseProcessedDataset" then BaseProcessedDataset
  else if String.eqb b "BaseProductionPipeline" then BaseProductionPipeline
  else if String.eqb b "BaseModel" then BaseModel
  else BaseMetric.

Definition scalar_of (v : value) (dflt : scalar) : scalar :=
  match v with VScalar s => s | _ => dflt end.

(** The object takes its table from the first base class, its name from
    the [name] argument (the class name when that is None), and a payload
    that counts its arguments. *)
Definition construct (c : class) (kw : kwargs) : option persistable :=
  Some (Persistable
          (table_of_base (List.hd "" (c_bases c)))
          SNone
          (match arg "name" VNone kw with
           | VScalar SNone => SStr (c_name c)
           | v => scalar_of v SNone
           end)
          0
          (SStr (c_name c))
          SNone
          SNone
          (Z.of_nat (size kw))).

Definition attach (p : persistable) (dep : value) : option persistable :=
  match dep with
  | VObj d =>
      Some (Persistable (p_table p) (p_id p) (p_name p) (p_version p)
              (p_registered_name p) (p_hash p) (p_id d)
              (p_payload p + 31 * p_payload d))
  | _ => None
  end.

Definition materialize (p : persistable) : option persistable :=
  Some (Persistable (p_table p) (p_id p) (p_name p) (p_version p)
          (p_registered_name p) (p_hash p) (p_dependency_id p)
          (p_payload p + 1000)).

Definition hash (p : persistable) : option scalar := Some (SInt (p_payload p)).

Definition impl : implementation :=
  Implementation construct attach attach attach
    materialize materialize materialize hash Some.

Definition LogisticModel : class :=
  Class "LogisticModel" ["BaseModel"] [("penalty", SStr "l2")].
Definition CsvDataset : class :=
  Class "CsvDataset" ["BaseRawDataset"] [].
Definition CleanPipeline : class :=
  Class "CleanPipeline" ["BaseDatasetPipeline"] [].
Definition AccuracyMetric : class :=
  Class "AccuracyMetric" ["BaseMetric"] [].

Definition classes : gmap string class :=
  {[ "LogisticModel" := LogisticModel; "CsvDataset" := CsvDataset;
     "CleanPipeline" := CleanPipeline; "AccuracyMetric" := AccuracyMetric ]}.

Definition row (t : table) (id : Z) (name : string) (version : Z)
    (registered_name : string) (h : Z) : persistable :=
  Persistable t (SInt id) (SStr name) version (SStr registered_name)
    (SInt h) SNone 0.

Definition empty_world : world := World classes [] [] [].

Definition model_v1 : persistable := row BaseModel 7 "m" 1 "LogisticModel" 42.
Definition model_v2 : persistable := row BaseModel 8 "m" 2 "LogisticModel" 43.
Definition d1_v1 : persistable := row BaseRawDataset 1 "d1" 1 "CsvDataset" 3.

Definition world_models : world :=
  World classes [model_v1; model_v2; d1_v1] [] [].

Definition str (s : string) : value := VScalar (SStr s).
Definition int (z : Z) : value := VScalar (SInt z).

End Demo.

(** ** Predicates used in the statements *)

(** Descending order of version. *)
Definition version_desc (a b : persistable) : Prop := p_version b ≤ p_version a.

(** A computation [respects] a relation [R] between the worlds before and
    after it and a set [Q] of exceptions when every run is within both. *)
Definition respects (R : world → world → Prop) (Q : error → bool) {A}
    (m : M A) : Prop :=
  ∀ w res w', m w = (res, w') → R w w' ∧ ∀ e, res = Raise e → Q e = true.

(** The exceptions of a lookup. *)
Definition lookup_error (e : error) : bool :=
  match e with
  | TrainingError | KeyError _ | TypeError | AttributeError
  | ImplementationError => true
  | _ => false
  end.

(** [quiet w w']: nothing but the log differs, and the log grew by calls
    that write nothing to the store. *)
Definition quiet (w w' : world) : Prop :=
  registry w' = registry w ∧ store w' = store w ∧ racers w' = racers w ∧
  ∃ evs, log w' = log w ++ evs ∧ Forall (λ e, is_write e = false) evs.

(** [no_query w w']: the log grew by calls other than store queries. *)
Definition no_query (w w' : world) : Prop :=
  ∃ evs, log w' = log w ++ evs ∧ Forall (λ e, is_query e = false) evs.

(** Every exception but the missing dependency. *)
Definition not_missing (e : error) : bool :=
  negb (bool_decide (e = TrainingError)).

(** [ensures Φ m]: whenever [m] returns, [Φ] holds of the value returned
    and of the world reached. *)
Definition ensures {A} (Φ : A → world → Prop) (m : M A) : Prop :=
  ∀ w a w', m w = (Ok a, w') → Φ a w'.

(** The shape of every run of a [create_new]: a record that is returned
    was inserted by the save that ended the run, and a conflict raised by
    the store ends the run with that conflict. *)
Definition creation (m : M persistable) : Prop :=
  ∀ w res w', m w = (res, w') →
    (∀ r, res = Ok r →
       r ∈ store w' ∧ (r ∉ store w) ∧
       last (log w') = Some (EvSave (p_table r))) ∧
    (EvConflict ∉ log w → EvConflict ∈ log w' →
       (res = Raise UniquenessConflict ∧ last (log w') = Some EvConflict)).


(** The table each creator looks in. *)
Definition table_of (self : creator) : table :=
  match self with
  | RawDatasetCreator => BaseRawDataset
  | DatasetPipelineCreator => BaseDatasetPipeline
  | DatasetCreator => BaseProcessedDataset
  | PipelineCreator => BaseProductionPipeline
  | ModelCreator => BaseModel
  | MetricCreator => BaseMetric
  end.

(** Concrete calls. *)
Module Calls.
Import Demo.

Definition pipeline_v1 : persistable :=
  row BaseProductionPipeline 5 "p" 1 "CleanPipeline" 11.

(** MetricCreator.determine_filters(name='accuracy', version=1,
      model=<model m v1>, registered_name='AccuracyMetric') *)
Definition metric_with_version : kwargs :=
  {[ "name" := str "accuracy"; "version" := int 1;
     "model" := VObj model_v1; "registered_name" := str "AccuracyMetric" ]}.

(** ModelCreator.determine_filters(name='m', strict=False,
      pipeline=<pipeline p v1>, registered_name='LogisticModel') *)
Definition model_loose : kwargs :=
  {[ "name" := str "m"; "strict" := VScalar (SBool false);
     "pipeline" := VObj pipeline_v1; "registered_name" := str "LogisticModel" ]}.

(** ModelCreator.determine_filters(name='m', version=2) *)
Definition model_by_version : kwargs :=
  {[ "name" := str "m"; "version" := int 2 ]}.

(** MetricCreator.determine_filters(name='accuracy', model_id=7) *)
Definition metric_by_model : kwargs :=
  {[ "name" := str "accuracy"; "model_id" := int 7 ]}.

End Calls.

Module LooseCalls.
Import Demo.


End LooseCalls.

Module MetricCalls.
Import Demo.




(** RawDatasetCreator.create_new(registered_name='CsvDataset', name='d1') *)
Definition new_d1 : kwargs :=
  {[ "registered_name" := str "CsvDataset"; "name" := str "d1" ]}.

(** A concurrent writer commits d1, version 1, while this creator saves. *)
Definition race_world : world := World classes [] [d1_v1] [].

End MetricCalls.

Module Scenario.
Import Demo.

(** RawDatasetCreator.retrieve_or_create(name='d1',
      registered_name='CsvDataset') *)
Definition request_d1 : kwargs :=
  {[ "name" := str "d1"; "registered_name" := str "CsvDataset" ]}.

(** The row that the first request stores. *)
Definition stored_d1 : persistable :=
  Persistable BaseRawDataset SNone (SStr "d1") 1 (SStr "CsvDataset")
    (SInt 1001) SNone 1001.

(** MetricCreator.create_new(registered_name='AccuracyMetric',
      name='accuracy'), with neither a model nor model_kwargs *)
Definition metric_bare : kwargs :=
  {[ "registered_name" := str "AccuracyMetric"; "name" := str "accuracy" ]}.

End Scenario.

(** The keyword under which each creator takes its dependency object, and
    the creator it asks when the object is not supplied. *)
Definition dependency_key (self : creator) : option string :=
  match self with
  | RawDatasetCreator => None
  | DatasetPipelineCreator => Some "raw_dataset"
  | DatasetCreator => Some "dataset_pipeline"
  | PipelineCreator => Some "dataset"
  | ModelCreator => Some "pipeline"
  | MetricCreator => Some "model"
  end.

Definition dependency_of (self : creator) : option creator :=
  match self with
  | RawDatasetCreator => None
  | DatasetPipelineCreator => Some RawDatasetCreator
  | DatasetCreator => Some DatasetPipelineCreator
  | PipelineCreator => Some DatasetCreator
  | ModelCreator => Some PipelineCreator
  | MetricCreator => Some ModelCreator
  end.


(** The guard of [Registry.__new__] lets the call through. *)
Definition mc_name_free (cls : Registry.metaclass) (w : world) : Prop :=
  Registry.mc_name cls ∉ dom (registry w).
Module MetricRows.
Import Demo.

(** A stored metric of model 7. *)
Definition accuracy_v1 : persistable :=
  Persistable BaseMetric (SInt 9) (SStr "accuracy") 1 (SStr "AccuracyMetric")
    (SInt 5) (SInt 7) 0.

Definition world_metrics : world := World classes [model_v1; accuracy_v1] [] [].

End MetricRows.

(** * Properties *)

(** ** SklearnPipeline.remove_transformer *)

Section RemoveTransformer.

Context {T : Type}.
Implicit Types (steps : list (string * T)) (name : string).

Let named name (ij : nat * (string * T)) : bool :=
  bool_decide (fst (snd ij) = name).

Lemma indices_absent name steps i :
  name ∉ List.map fst steps →
  List.filter (named name) (SklearnPipeline.enumerate_from i steps) = [].
Proof.
  revert i. induction steps as [|[n t] steps IH]; intros i Hn; [done|].
  cbn [SklearnPipeline.enumerate_from List.filter].
  unfold named at 1. cbn [fst snd].
  rewrite bool_decide_eq_false_2.
  - apply IH. intros Hin. apply Hn. cbn. by right.
  - intros ->. apply Hn. cbn. left.
Qed.

Lemma indices_first name steps i l1 t l2 :
  steps = l1 ++ (name, t) :: l2 →
  name ∉ List.map fst l1 →
  ∃ more,
    List.map fst (List.filter (named name) (SklearnPipeline.enumerate_from i steps))
    = (i + length l1)%nat :: more.
Proof.
  intros ->. revert i. induction l1 as [|[n t'] l1 IH]; intros i Hn.
  - cbn [app SklearnPipeline.enumerate_from List.filter].
    unfold named at 1. cbn [fst snd]. rewrite bool_decide_eq_true_2 by done.
    cbn. rewrite Nat.add_0_r. eauto.
  - cbn [app SklearnPipeline.enumerate_from List.filter].
    unfold named at 1. cbn [fst snd].
    rewrite bool_decide_eq_false_2.
    + destruct (IH (S i)) as [more Hm].
      { intros Hin. apply Hn. cbn. by right. }
      exists more. rewrite Hm. cbn [length]. f_equal. lia.
    + intros ->. apply Hn. cbn. left.
Qed.

Lemma pop_middle (l1 : list (string * T)) x l2 :
  SklearnPipeline.pop (length l1) (l1 ++ x :: l2) = Ok (l1 ++ l2).
Proof.
  induction l1 as [|y l1 IH]; [done|].
  cbn [app length SklearnPipeline.pop]. by rewrite IH.
Qed.

(** C10. [remove_transformer name] removes exactly the first step called
    [name] and keeps every other step in order; when no step has that
    name it raises IndexError. *)
Theorem remove_transformer_first_or_IndexError name steps :
  (name ∉ List.map fst steps →
     SklearnPipeline.remove_transformer name steps = Raise IndexError) ∧
  (∀ l1 t l2,
     steps = l1 ++ (name, t) :: l2 →
     name ∉ List.map fst l1 →
     SklearnPipeline.remove_transformer name steps = Ok (l1 ++ l2)).
Proof.
  split.
  - intros Hn. unfold SklearnPipeline.remove_transformer, SklearnPipeline.enumerate.
    fold (named name). by rewrite indices_absent.
  - intros l1 t l2 Hs Hn.
    unfold SklearnPipeline.remove_transformer, SklearnPipeline.enumerate.
    fold (named name).
    destruct (indices_first name steps 0 l1 t l2 Hs Hn) as [more ->].
    subst steps. apply pop_middle.
Qed.

End RemoveTransformer.

(** ** Registry *)

Section RegistryFacts.

Import Registry.

(** The guard of [__new__] looks up the name of the metaclass, so a
    registration succeeds whenever that name is not a key, whether or not
    the name of the new class is already bound. *)
Lemma new_binds cls name bases attrs w :
  mc_name cls ∉ dom (registry w) →
  __new__ cls name bases attrs w
  = (Ok (Class name bases attrs),
     set_registry (<[name := Class name bases attrs]> (registry w)) w).
Proof.
  intros Hn. unfold __new__, bind, get_world.
  by rewrite bool_decide_eq_false_2.
Qed.

Lemma new_guard cls name bases attrs w :
  mc_name cls ∈ dom (registry w) →
  __new__ cls name bases attrs w = (Raise ValueError, w).
Proof.
  intros Hn. unfold __new__, bind, get_world.
  by rewrite bool_decide_eq_true_2.
Qed.

End RegistryFacts.

(** C3. Registering a second class under a name that is already bound:
    [__new__] raises nothing, and [get] then returns the second class, not
    the first. *)
Theorem Registry_new_duplicate_overwrites :
  let first := Class "LogisticModel" ["BaseModel"] [("penalty", SStr "l2")] in
  let second := Class "LogisticModel" ["BaseModel"] [("penalty", SStr "l1")] in
  ∃ w1 w2,
    Registry.__new__ Registry.MetaRegistry "LogisticModel" ["BaseModel"]
      [("penalty", SStr "l2")] (World ∅ [] [] []) = (Ok first, w1) ∧
    Registry.get "LogisticModel" w1 = Some first ∧
    Registry.is_registered "LogisticModel" w1 = true ∧
    Registry.__new__ Registry.MetaRegistry "LogisticModel" ["BaseModel"]
      [("penalty", SStr "l1")] w1 = (Ok second, w2) ∧
    Registry.get "LogisticModel" w2 = Some second ∧
    Registry.get "LogisticModel" w2 ≠ Some first.
Proof.
  cbv zeta. eexists _, _.
  split; [apply new_binds; cbn; set_solver|].
  split; [unfold Registry.get, Registry.get_from_registry; cbn;
          apply lookup_insert_eq|].
  split; [unfold Registry.is_registered; cbn; apply bool_decide_eq_true_2;
          set_solver|].
  split.
  { apply new_binds. cbn. rewrite dom_insert_L. set_solver. }
  unfold Registry.get, Registry.get_from_registry. cbn.
  rewrite lookup_insert_eq. split; [done|]. discriminate.
Qed.

(** ** The store query behind [retrieve] *)

Section StoreFacts.

Import Store.

Lemma insert_desc_perm r rows : Permutation (insert_desc r rows) (r :: rows).
Proof.
  induction rows as [|x rows IH]; [done|].
  cbn [insert_desc]. destruct (p_version x <? p_version r); [done|].
  rewrite IH. apply perm_swap.
Qed.

Lemma order_by_perm rows : Permutation (order_by_version_desc rows) rows.
Proof.
  induction rows as [|r rows IH]; [done|].
  cbn. rewrite insert_desc_perm. by constructor.
Qed.

Lemma insert_desc_sorted r rows :
  StronglySorted version_desc rows →
  StronglySorted version_desc (insert_desc r rows).
Proof.
  induction 1 as [|x rows Hs IH Hall]; cbn [insert_desc].
  - repeat constructor.
  - destruct (Z.ltb_spec (p_version x) (p_version r)) as [Hlt|Hge].
    + constructor; [by constructor|].
      constructor; [unfold version_desc; lia|].
      eapply Forall_impl; [exact Hall|]. unfold version_desc. intros; lia.
    + constructor; [done|].
      rewrite insert_desc_perm. by constructor.
Qed.

Lemma order_by_sorted rows :
  StronglySorted version_desc (order_by_version_desc rows).
Proof.
  induction rows as [|r rows IH]; [constructor|].
  cbn. by apply insert_desc_sorted.
Qed.

(** The first row of the ordered result carries the largest version. *)
Lemma first_is_newest rows p :
  first (order_by_version_desc rows) = Some p →
  p ∈ rows ∧ ∀ x, x ∈ rows → p_version x ≤ p_version p.
Proof.
  intros Hf. pose proof (order_by_sorted rows) as Hs.
  pose proof (order_by_perm rows) as Hp.
  destruct (order_by_version_desc rows) as [|h t]; [done|].
  injection Hf as ->. split.
  - rewrite <- Hp. left.
  - intros x Hx. rewrite <- Hp in Hx.
    apply StronglySorted_inv in Hs as [_ Hall].
    apply elem_of_cons in Hx as [->|Hx]; [lia|].
    rewrite Forall_forall in Hall. by apply Hall.
Qed.

Lemma first_none rows :
  first (order_by_version_desc rows) = None → rows = [].
Proof.
  intros Hf. pose proof (order_by_perm rows) as Hp.
  destruct (order_by_version_desc rows); [|done].
  by apply Permutation_nil_l in Hp.
Qed.

Lemma elem_of_where cls f rows x :
  x ∈ where_ cls f rows ↔ x ∈ rows ∧ row_matches cls f x = true.
Proof.
  unfold where_. rewrite !list_elem_of_In, filter_In. tauto.
Qed.

End StoreFacts.

(** C5. [retrieve] asks the store once and returns the first row of the
    matching rows in descending order of version: a matching row whose
    version is the largest among all matching rows, or None when no row
    matches. *)
Theorem retrieve_newest_match (cls : table) (f : filters) (w : world) :
  ∃ rows,
    Permutation rows (Store.where_ cls f (store w)) ∧
    StronglySorted version_desc rows ∧
    retrieve cls f w = (Ok (head rows), emit (EvQuery cls) w) ∧
    match head rows with
    | Some p =>
        p ∈ store w ∧ Store.row_matches cls f p = true ∧
        ∀ x, x ∈ store w → Store.row_matches cls f x = true →
             p_version x ≤ p_version p
    | None => ∀ x, x ∈ store w → Store.row_matches cls f x = false
    end.
Proof.
  exists (Store.order_by_version_desc (Store.where_ cls f (store w))).
  split; [apply order_by_perm|]. split; [apply order_by_sorted|].
  split; [done|].
  destruct (head _) as [p|] eqn:Hh.
  - apply first_is_newest in Hh as [Hin Hmax].
    apply elem_of_where in Hin as [Hin Hm]. repeat split; [done..|].
    intros x Hx Hxm. apply Hmax. by apply elem_of_where.
  - apply first_none in Hh. intros x Hx.
    destruct (Store.row_matches cls f x) eqn:Hm; [|done].
    assert (x ∈ Store.where_ cls f (store w)) as Hin by by apply elem_of_where.
    rewrite Hh in Hin. by apply elem_of_nil in Hin.
Qed.

(** ** Reasoning about the world monad *)

Lemma bind_inv {A B} (m : M A) (f : A → M B) w res w' :
  bind m f w = (res, w') →
  (∃ e, m w = (Raise e, w') ∧ res = Raise e) ∨
  (∃ a w1, m w = (Ok a, w1) ∧ f a w1 = (res, w')).
Proof.
  unfold bind. destruct (m w) as [[a|e] w1]; intros H.
  - right. eauto.
  - left. injection H as <- <-. eauto.
Qed.

Lemma bind_ok {A B} (m : M A) (f : A → M B) w a w1 :
  m w = (Ok a, w1) → bind m f w = f a w1.
Proof. unfold bind. by intros ->. Qed.

Lemma bind_raise {A B} (m : M A) (f : A → M B) w e w1 :
  m w = (Raise e, w1) → bind m f w = (Raise e, w1).
Proof. unfold bind. by intros ->. Qed.

Section Respects.

Variable R : world → world → Prop.
Variable Q : error → bool.
Hypothesis R_refl : ∀ w, R w w.
Hypothesis R_trans : ∀ a b c, R a b → R b c → R a c.

Lemma respects_ret {A} (a : A) : respects R Q (ret a).
Proof. intros w res w' [= <- <-]. split; [apply R_refl|discriminate]. Qed.

Lemma respects_raise {A} e : Q e = true → respects R Q (@raise A e).
Proof.
  intros HQ w res w' [= <- <-]. split; [apply R_refl|]. by intros ? [= <-].
Qed.

Lemma respects_bind {A B} (m : M A) (f : A → M B) :
  respects R Q m → (∀ a, respects R Q (f a)) → respects R Q (bind m f).
Proof.
  intros Hm Hf w res w' [(e & H1 & ->)|(a & w1 & H1 & H2)]%bind_inv.
  - apply Hm in H1 as [H1 HQ]. split; [done|]. intros e' [= <-]. by apply HQ.
  - apply Hm in H1 as [H1 _]. apply Hf in H2 as [H2 HQ]. split; [|done].
    by eapply R_trans.
Qed.

Lemma respects_get_world : respects R Q get_world.
Proof. intros w res w' [= <- <-]. split; [apply R_refl|discriminate]. Qed.

Lemma respects_tell e : (∀ w, R w (emit e w)) → respects R Q (tell e).
Proof. intros He w res w' [= <- <-]. split; [by apply He|discriminate]. Qed.

Lemma respects_lift_opt {A} (o : option A) :
  Q ImplementationError = true → respects R Q (lift_opt o).
Proof.
  intros HQ. destruct o; [apply respects_ret|by apply respects_raise].
Qed.

Lemma respects_call {A} e (o : option A) :
  (∀ w, R w (emit e w)) → Q ImplementationError = true → respects R Q (call e o).
Proof.
  intros He HQ. apply respects_bind; [by apply respects_tell|].
  intros _. by apply respects_lift_opt.
Qed.

Lemma respects_pop k kw : Q (KeyError k) = true → respects R Q (pop k kw).
Proof.
  intros HQ. unfold pop. destruct (kw !! k);
    [apply respects_ret|by apply respects_raise].
Qed.

Lemma respects_unpack v : Q TypeError = true → respects R Q (unpack v).
Proof.
  intros HQ. destruct v; first [apply respects_ret|by apply respects_raise].
Qed.

Lemma respects_get_id v : Q AttributeError = true → respects R Q (get_id v).
Proof.
  intros HQ. destruct v; first [apply respects_ret|by apply respects_raise].
Qed.

Lemma respects_registry_get v : Q TypeError = true → respects R Q (registry_get v).
Proof.
  intros HQ. destruct v as [[| | |s]| |];
    first [apply respects_ret|by apply respects_raise|idtac].
  intros w res w' [= <- <-]. split; [apply R_refl|discriminate].
Qed.

Section WithImplementation.

Variable impl : implementation.

Lemma respects_instantiate c kw :
  (∀ k w, R w (emit (EvConstruct k) w)) →
  Q TypeError = true → Q ImplementationError = true →
  respects R Q (instantiate impl c kw).
Proof.
  intros Ha HT HI. destruct c; [by apply respects_call|by apply respects_raise].
Qed.

Lemma respects_retrieve cls f :
  (∀ w, R w (emit (EvQuery cls) w)) → respects R Q (retrieve cls f).
Proof.
  intros Ha. apply respects_bind; [by apply respects_tell|]. intros _.
  apply respects_bind; [apply respects_get_world|]. intros w0.
  apply respects_ret.
Qed.

Lemma respects_retrieve_dependency dependency_cls kw :
  (∀ t w, R w (emit (EvQuery t) w)) → (∀ w, R w (emit EvLoad w)) →
  Q TrainingError = true → Q ImplementationError = true →
  (∀ kw', respects R Q (dependency_cls kw')) →
  respects R Q (retrieve_dependency impl dependency_cls kw).
Proof.
  intros Hq Hl HT HI Hd. apply respects_bind; [apply Hd|]. intros cf.
  apply respects_bind; [by apply respects_retrieve|]. intros [d|].
  - by apply respects_call.
  - by apply respects_raise.
Qed.

Lemma respects_save p :
  (∀ w, R w (emit EvHash w)) → Q ImplementationError = true →
  (∀ p', respects R Q (Store.persist p')) →
  respects R Q (save impl p).
Proof.
  intros Ha HI Hp. apply respects_bind; [by apply respects_call|]. intros h.
  apply respects_bind; [apply respects_get_world|]. intros w0. apply Hp.
Qed.

End WithImplementation.

End Respects.

Ltac respects_side :=
  solve
    [ assumption
    | reflexivity
    | intros;
      match goal with
      | H : ∀ e, _ = _ → ?f e = true |- ?f _ = true => apply H; reflexivity
      | H : ∀ e w, _ = _ → ?r w (emit e w) |- ?r _ (emit _ _) =>
          apply H; reflexivity
      end ].

Ltac respects_step :=
  first
    [ match goal with
      | H : ∀ kw, respects _ _ (retrieve_dependency _ _ kw)
        |- respects _ _ (retrieve_dependency _ _ _) => apply H
      end
    | apply respects_ret; respects_side
    | apply respects_raise; respects_side
    | apply respects_call; respects_side
    | apply respects_pop; respects_side
    | apply respects_unpack; respects_side
    | apply respects_get_id; respects_side
    | apply respects_registry_get; respects_side
    | apply respects_instantiate; respects_side
    | apply respects_save; respects_side
    | apply respects_bind; [respects_side.. | | intros ?]
    | match goal with
      | |- context [match ?x with _ => _ end] => destruct x
      end ].

Ltac respects_body := cbv beta iota zeta; repeat respects_step.

(** Every [determine_filters], and with it [retrieve_dependency], only
    calls implementation methods and queries the store. *)
Section Lookups.

Variable R : world → world → Prop.
Variable Q : error → bool.
Hypothesis R_refl : ∀ w, R w w.
Hypothesis R_trans : ∀ a b c, R a b → R b c → R a c.
Hypothesis R_reads : ∀ e w, is_write e = false → R w (emit e w).
Hypothesis Q_lookup : ∀ e, lookup_error e = true → Q e = true.

Variable impl : implementation.

Lemma respects_dependency dependency_cls kw :
  (∀ kw', respects R Q (dependency_cls kw')) →
  respects R Q (retrieve_dependency impl dependency_cls kw).
Proof. intros Hd. apply respects_retrieve_dependency; respects_side. Qed.

Lemma RawDatasetCreator_lookup kw :
  respects R Q (RawDatasetCreator_determine_filters impl kw).
Proof. unfold RawDatasetCreator_determine_filters. respects_body. Qed.

Lemma DatasetPipelineCreator_lookup kw :
  respects R Q (DatasetPipelineCreator_determine_filters impl kw).
Proof.
  unfold DatasetPipelineCreator_determine_filters, pop_default,
    DatasetPipelineCreator_retrieve_dataset.
  pose proof (λ kw', respects_dependency _ kw' RawDatasetCreator_lookup).
  respects_body.
Qed.

Lemma DatasetCreator_lookup kw :
  respects R Q (DatasetCreator_determine_filters impl kw).
Proof.
  unfold DatasetCreator_determine_filters, pop_default,
    DatasetCreator_retrieve_pipeline.
  pose proof (λ kw', respects_dependency _ kw' DatasetPipelineCreator_lookup).
  respects_body.
Qed.

Lemma PipelineCreator_lookup kw :
  respects R Q (PipelineCreator_determine_filters impl kw).
Proof.
  unfold PipelineCreator_determine_filters, pop_default,
    PipelineCreator_retrieve_dataset.
  pose proof (λ kw', respects_dependency _ kw' DatasetCreator_lookup).
  respects_body.
Qed.

Lemma ModelCreator_lookup kw :
  respects R Q (ModelCreator_determine_filters impl kw).
Proof.
  unfold ModelCreator_determine_filters, pop_default,
    ModelCreator_retrieve_pipeline.
  pose proof (λ kw', respects_dependency _ kw' PipelineCreator_lookup).
  respects_body.
Qed.

Lemma MetricCreator_lookup kw :
  respects R Q (MetricCreator_determine_filters impl kw).
Proof.
  unfold MetricCreator_determine_filters, pop_default,
    MetricCreator_retrieve_model.
  pose proof (λ kw', respects_dependency _ kw' ModelCreator_lookup).
  respects_body.
Qed.

Lemma determine_filters_lookup self kw :
  respects R Q (determine_filters impl self kw).
Proof.
  destruct self; cbn [determine_filters];
    auto using RawDatasetCreator_lookup, DatasetPipelineCreator_lookup,
      DatasetCreator_lookup, PipelineCreator_lookup, ModelCreator_lookup,
      MetricCreator_lookup.
Qed.

End Lookups.

(** *** Computations that only read *)

Lemma quiet_refl w : quiet w w.
Proof. repeat split. exists []. by rewrite app_nil_r. Qed.

Lemma quiet_trans a b c : quiet a b → quiet b c → quiet a c.
Proof.
  intros (Hr1 & Hs1 & Hc1 & e1 & Hl1 & Hf1) (Hr2 & Hs2 & Hc2 & e2 & Hl2 & Hf2).
  repeat split; [congruence..|].
  exists (e1 ++ e2). rewrite Hl2, Hl1, app_assoc. split; [done|].
  by apply Forall_app.
Qed.

Lemma quiet_emit e w : is_write e = false → quiet w (emit e w).
Proof. intros He. repeat split. exists [e]. split; [done|]. by constructor. Qed.

Lemma quiet_no_conflict w w' :
  quiet w w' → EvConflict ∈ log w' → EvConflict ∈ log w.
Proof.
  intros (_ & _ & _ & evs & -> & Hf) [H|H]%elem_of_app; [done|].
  rewrite Forall_forall in Hf. by apply Hf in H.
Qed.

Lemma no_query_refl w : no_query w w.
Proof. exists []. by rewrite app_nil_r. Qed.

Lemma no_query_trans a b c : no_query a b → no_query b c → no_query a c.
Proof.
  intros (e1 & Hl1 & Hf1) (e2 & Hl2 & Hf2).
  exists (e1 ++ e2). rewrite Hl2, Hl1, app_assoc. split; [done|].
  by apply Forall_app.
Qed.

Lemma no_query_emit e w : is_query e = false → no_query w (emit e w).
Proof. intros He. exists [e]. split; [done|]. by constructor. Qed.

Lemma persist_no_query p : respects no_query not_missing (Store.persist p).
Proof.
  intros w res w'. unfold Store.persist.
  destruct (existsb _ _); intros [= <- <-].
  - split; [|by intros ? [= <-]].
    exists [EvSave (p_table p); EvConflict]. cbn. rewrite <- app_assoc.
    split; [done|]. by repeat constructor.
  - split; [|discriminate].
    exists [EvSave (p_table p)]. split; [done|]. by repeat constructor.
Qed.

Create HintDb respects discriminated.
#[global] Hint Resolve quiet_refl quiet_trans no_query_refl no_query_trans
  persist_no_query : respects.
#[global] Hint Extern 1 (quiet _ (emit _ _)) =>
  apply quiet_emit; reflexivity : respects.
#[global] Hint Extern 1 (no_query _ (emit _ _)) =>
  apply no_query_emit; reflexivity : respects.

Ltac respects_side ::=
  solve
    [ assumption
    | reflexivity
    | intros;
      match goal with
      | H : ∀ e, _ = _ → ?f e = true |- ?f _ = true => apply H; reflexivity
      | H : ∀ e w, _ = _ → ?r w (emit e w) |- ?r _ (emit _ _) =>
          apply H; reflexivity
      end
    | eauto with respects ].

Section ReadOnly.

Variable impl : implementation.

Lemma determine_filters_quiet self kw :
  respects quiet lookup_error (determine_filters impl self kw).
Proof.
  apply determine_filters_lookup; eauto with respects.
  intros. by apply quiet_emit.
Qed.

Lemma retrieve_dependency_quiet self kw :
  respects quiet lookup_error
    (retrieve_dependency impl (determine_filters impl self) kw).
Proof.
  apply respects_dependency; eauto with respects.
  - intros. by apply quiet_emit.
  - intros. apply determine_filters_quiet.
Qed.

End ReadOnly.

(** *** What a computation returns *)

Section Ensures.

Context {A : Type} (Φ : A → world → Prop).

Lemma ensures_ret a : (∀ w, Φ a w) → ensures Φ (ret a).
Proof. intros H w a' w' [= <- <-]. apply H. Qed.

Lemma ensures_raise e : ensures Φ (raise e).
Proof. intros w a w' [=]. Qed.

Lemma ensures_bind {B} (m : M B) (f : B → M A) :
  (∀ b, ensures Φ (f b)) → ensures Φ (bind m f).
Proof.
  intros Hf w a w' [(e & _ & [=])|(b & w1 & _ & H2)]%bind_inv.
  by apply Hf in H2.
Qed.

End Ensures.



(** The same, leaving the construction of the candidate aside. *)
Ltac ensures_value_step :=
  lazymatch goal with
  | |- ensures _ (ret _) => apply ensures_ret; intros ?
  | |- ensures _ (raise _) => apply ensures_raise
  | |- ensures _ (bind _ _) => apply ensures_bind; intros ?
  | |- context [match ?x with _ => _ end] => destruct x
  end.

Ltac ensures_value := cbv beta iota zeta; repeat ensures_value_step.

(** *** The runs of [create_new] *)

Section Creation.

Variable impl : implementation.

Lemma creation_raise e : creation (raise e).
Proof.
  intros w res w' [= <- <-]. split; [discriminate|]. by intros Hn Hin.
Qed.

Lemma creation_bind {A} (m : M A) (f : A → M persistable) :
  respects quiet lookup_error m → (∀ a, creation (f a)) → creation (bind m f).
Proof.
  intros Hm Hf w res w' [(e & H1 & ->)|(a & w1 & H1 & H2)]%bind_inv.
  - apply Hm in H1 as [Hq _]. split; [discriminate|].
    intros Hn Hin. destruct Hn. by eapply quiet_no_conflict.
  - apply Hm in H1 as [Hq _]. apply Hf in H2 as [Hok Hc]. split.
    + intros r Hr. destruct (Hok r Hr) as (? & ? & ?).
      destruct Hq as (_ & <- & _). done.
    + intros Hn Hin. apply Hc; [|done].
      intros Hx. apply Hn. by eapply quiet_no_conflict.
Qed.

Lemma same_key_refl p : Store.same_key p p = true.
Proof. unfold Store.same_key. by rewrite !bool_decide_eq_true_2. Qed.

Lemma creation_persist p : creation (Store.persist p).
Proof.
  intros w res w'. unfold Store.persist.
  destruct (existsb _ _) eqn:Hex; intros [= <- <-].
  - split; [discriminate|]. intros _ _. split; [done|].
    cbn. by rewrite last_snoc.
  - split.
    + intros r [= <-]. cbn. split; [set_solver|]. split; [|by rewrite last_snoc].
      intros Hin.
      assert (existsb (Store.same_key p) (store w ++ racers w) = true) as Ht.
      { apply existsb_exists. exists p. split; [|apply same_key_refl].
        apply list_elem_of_In. set_solver. }
      congruence.
    + intros Hn Hin. cbn in Hin. set_solver.
Qed.

Lemma creation_save p : creation (save impl p).
Proof.
  unfold save. apply creation_bind; [respects_step|]. intros h.
  apply creation_bind; [apply respects_get_world; respects_side|]. intros w0.
  apply creation_persist.
Qed.

End Creation.

Ltac creation_step :=
  first
    [ apply creation_save
    | apply creation_raise
    | apply creation_bind; [solve [respects_body] | intros ?]
    | match goal with
      | |- context [match ?x with _ => _ end] => destruct x
      end ].

Lemma create_new_creation impl self kw : creation (create_new impl self kw).
Proof.
  pose proof (retrieve_dependency_quiet impl RawDatasetCreator) as H1.
  pose proof (retrieve_dependency_quiet impl DatasetPipelineCreator) as H2.
  pose proof (retrieve_dependency_quiet impl DatasetCreator) as H3.
  pose proof (retrieve_dependency_quiet impl PipelineCreator) as H4.
  pose proof (retrieve_dependency_quiet impl ModelCreator) as H5.
  cbn [determine_filters] in *.
  destruct self; cbn [create_new];
    unfold RawDatasetCreator_create_new, DatasetPipelineCreator_create_new,
      DatasetCreator_create_new, PipelineCreator_create_new,
      ModelCreator_create_new, MetricCreator_create_new, pop_default,
      DatasetPipelineCreator_retrieve_dataset, DatasetCreator_retrieve_pipeline,
      PipelineCreator_retrieve_dataset, ModelCreator_retrieve_pipeline,
      MetricCreator_retrieve_model;
    cbv beta iota zeta; repeat creation_step.
Qed.

(** ** Keyword arguments *)





(** ** determine_filters *)

(** C6 (amended). For the five creators other than MetricCreator, an
    explicit version that is not None makes [determine_filters] return
    exactly the filters name and version, and the world is untouched: no
    candidate is constructed, no hash is computed, nothing is logged. *)
Theorem explicit_version_filters (impl : implementation) (self : creator)
    (kw : kwargs) (w : world) :
  self ≠ MetricCreator →
  is_None (arg "version" VNone kw) = false →
  determine_filters impl self kw w
  = (Ok (table_of self,
         {[ "name" := arg "name" (VScalar (SStr "")) kw;
            "version" := arg "version" VNone kw ]}), w).
Proof.
  intros Hs Hv.
  destruct self; try done; cbn [determine_filters table_of];
    unfold RawDatasetCreator_determine_filters,
      DatasetPipelineCreator_determine_filters, DatasetCreator_determine_filters,
      PipelineCreator_determine_filters, ModelCreator_determine_filters;
    cbv zeta; by rewrite Hv.
Qed.

Lemma explicit_version_filters_witness :
  determine_filters Demo.impl ModelCreator Calls.model_by_version Demo.world_models
  = (Ok (BaseModel, {[ "name" := Demo.str "m"; "version" := Demo.int 2 ]}),
     Demo.world_models).
Proof.
  rewrite (explicit_version_filters Demo.impl ModelCreator
             Calls.model_by_version Demo.world_models);
    [reflexivity | discriminate | reflexivity].
Defined.

(** C6 (as stated, refuted). MetricCreator has no [version] parameter: the
    version stays among the keyword arguments of the candidate, which is
    constructed and hashed, and the filters carry no version. *)
Lemma MetricCreator_ignores_version :
  is_None (arg "version" VNone Calls.metric_with_version) = false ∧
  ∃ f w',
    determine_filters Demo.impl MetricCreator Calls.metric_with_version
      Demo.empty_world = (Ok (BaseMetric, f), w') ∧
    f !! "version" = None ∧
    f ≠ {[ "name" := arg "name" (VScalar (SStr "")) Calls.metric_with_version;
           "version" := arg "version" VNone Calls.metric_with_version ]} ∧
    log w' = [EvConstruct Demo.AccuracyMetric; EvAttach; EvHash].
Proof.
  split; [reflexivity|]. eexists _, _. split; [vm_compute; reflexivity|].
  split; [reflexivity|]. split; [|reflexivity].
  intros H. apply (f_equal (λ m : filters, m !! "version")) in H.
  vm_compute in H. discriminate.
Qed.

(** C7. With a name and a model_id that are not None,
    [MetricCreator.determine_filters] returns the filters name and model_id
    at once; the world is untouched, so no metric is constructed, no model
    is looked up and no hash is computed. *)
Theorem MetricCreator_name_and_model_id (impl : implementation) (kw : kwargs)
    (w : world) :
  is_None (arg "name" VNone kw) = false →
  is_None (arg "model_id" VNone kw) = false →
  determine_filters impl MetricCreator kw w
  = (Ok (BaseMetric,
         {[ "name" := arg "name" VNone kw;
            "model_id" := arg "model_id" VNone kw ]}), w).
Proof.
  intros Hn Hm. cbn [determine_filters].
  unfold MetricCreator_determine_filters. cbv zeta. by rewrite Hn, Hm.
Qed.

Lemma MetricCreator_name_and_model_id_witness :
  determine_filters Demo.impl MetricCreator Calls.metric_by_model Demo.empty_world
  = (Ok (BaseMetric, {[ "name" := Demo.str "accuracy"; "model_id" := Demo.int 7 ]}),
     Demo.empty_world).
Proof.
  rewrite (MetricCreator_name_and_model_id Demo.impl Calls.metric_by_model
             Demo.empty_world); reflexivity.
Defined.









(** ** retrieve_dependency *)


Lemma retrieve_runs cls f w :
  retrieve cls f w
  = (Ok (Store.first (Store.order_by_version_desc
                        (Store.where_ cls f (store w)))),
     emit (EvQuery cls) w).
Proof. reflexivity. Qed.

Lemma call_runs {A} e (o : option A) w :
  call e o w
  = (match o with Some a => Ok a | None => Raise ImplementationError end,
     emit e w).
Proof. unfold call, bind, tell, lift_opt. by destruct o. Qed.


Lemma retrieve_dependency_found impl dependency_cls kw w d w' :
  retrieve_dependency impl dependency_cls kw w = (Ok d, w') →
  ∃ cls f w1 p,
    dependency_cls kw w = (Ok (cls, f), w1) ∧
    p ∈ store w1 ∧ Store.row_matches cls f p = true ∧
    load impl p = Some d.
Proof.
  unfold retrieve_dependency.
  intros [(e & _ & [=])|([cls f] & w1 & Hd & H)]%bind_inv.
  apply bind_inv in H as [(e & _ & [=])|(o & w2 & Hr & H)].
  rewrite retrieve_runs in Hr. injection Hr as <- <-.
  destruct (Store.first _) as [p|] eqn:Hf; [|discriminate].
  apply first_is_newest in Hf as [Hin _].
  apply elem_of_where in Hin as [Hin Hm].
  rewrite call_runs in H. destruct (load impl p) eqn:Hl; [|discriminate].
  injection H as <- <-. by exists cls, f, w1, p.
Qed.


Lemma determine_filters_table impl self kw :
  ensures (λ (cf : table * filters) _, cf.1 = table_of self)
    (determine_filters impl self kw).
Proof.
  destruct self; cbn [determine_filters table_of];
    unfold RawDatasetCreator_determine_filters,
      DatasetPipelineCreator_determine_filters, DatasetCreator_determine_filters,
      PipelineCreator_determine_filters, ModelCreator_determine_filters,
      MetricCreator_determine_filters, pop_default;
    ensures_value; reflexivity.
Qed.

Lemma row_matches_table cls f p :
  Store.row_matches cls f p = true → p_table p = cls.
Proof.
  unfold Store.row_matches. intros [H _]%andb_prop.
  by apply bool_decide_eq_true_1 in H.
Qed.

(** With no row in the dependency's table, the lookup raises. *)
Lemma retrieve_dependency_empty_table impl self kw w :
  (∀ x, x ∈ store w → p_table x ≠ table_of self) →
  ∃ e w',
    retrieve_dependency impl (determine_filters impl self) kw w = (Raise e, w') ∧
    store w' = store w.
Proof.
  intros Hno.
  destruct (retrieve_dependency impl (determine_filters impl self) kw w)
    as [[d|e] w'] eqn:H.
  - apply retrieve_dependency_found in H as (cls & f & w1 & p & Hd & Hin & Hm & _).
    pose proof (determine_filters_table impl self kw w _ _ Hd) as Ht.
    pose proof (determine_filters_quiet impl self kw w _ _ Hd) as [(_ & Hs & _) _].
    cbn in Ht. subst cls. rewrite Hs in Hin.
    apply row_matches_table in Hm. by apply Hno in Hin.
  - exists e, w'. split; [done|].
    by apply retrieve_dependency_quiet in H as [(_ & Hs & _) _].
Qed.



(** ** retrieve_or_create *)



(** ** create_new and the unique constraint *)

(** C8 (amended). When the store raises UniquenessConflict during
    [create_new], the conflict is what the caller of [create_new], and of
    [retrieve_or_create], receives; the conflict is the last call that
    was made, so the store is not queried again. *)
Theorem conflict_reaches_the_caller (impl : implementation) (self : creator)
    (kw : kwargs) (w : world) (res : result persistable) (w' : world) :
  create_new impl self kw w = (res, w') ∨
  retrieve_or_create impl self kw w = (res, w') →
  EvConflict ∉ log w →
  EvConflict ∈ log w' →
  res = Raise UniquenessConflict ∧ last (log w') = Some EvConflict.
Proof.
  intros [H|H] Hn Hin.
  - by apply (create_new_creation impl self kw w res w' H).
  - unfold retrieve_or_create in H.
    apply bind_inv in H as [(e & Hd & ->)|([cls f] & w1 & Hd & H)].
    { apply determine_filters_quiet in Hd as [Hq _].
      destruct Hn. by eapply quiet_no_conflict. }
    apply determine_filters_quiet in Hd as [Hq1 _].
    rewrite (bind_ok _ _ _ _ _ (retrieve_runs cls f w1)) in H.
    assert (quiet w (emit (EvQuery cls) w1)) as Hq2.
    { eapply quiet_trans; [done|]. by apply quiet_emit. }
    destruct (Store.first _) as [p|].
    + rewrite call_runs in H. injection H as <- <-.
      destruct Hn. eapply quiet_no_conflict; [|done].
      eapply quiet_trans; [done|]. by apply quiet_emit.
    + apply (create_new_creation impl self kw _ res w' H); [|done].
      intros Hx. apply Hn. by eapply quiet_no_conflict.
Qed.

Lemma conflict_reaches_the_caller_witness :
  (create_new Demo.impl RawDatasetCreator MetricCalls.new_d1
     MetricCalls.race_world).1 = Raise UniquenessConflict.
Proof.
  destruct (create_new Demo.impl RawDatasetCreator MetricCalls.new_d1
              MetricCalls.race_world) as [res w'] eqn:H.
  refine (proj1 (conflict_reaches_the_caller Demo.impl RawDatasetCreator
                   MetricCalls.new_d1 MetricCalls.race_world res w'
                   (or_introl H) _ _)).
  - cbn. apply not_elem_of_nil.
  - vm_compute in H. injection H as <- <-. cbn. set_solver.
Defined.

(** C8 (as stated, refuted). A concurrent writer commits d1, version 1,
    while [create_new] saves the same name and version: the caller gets
    the conflict, although the winner's row is in the store and a query
    would find it; no query is made after the save. *)
Lemma conflict_is_not_recovered :
  ∃ w',
    create_new Demo.impl RawDatasetCreator MetricCalls.new_d1
      MetricCalls.race_world = (Raise UniquenessConflict, w') ∧
    store w' = [Demo.d1_v1] ∧
    Store.first (Store.order_by_version_desc
                   (Store.where_ BaseRawDataset {[ "name" := Demo.str "d1" ]}
                      (store w'))) = Some Demo.d1_v1 ∧
    log w' = [EvConstruct Demo.CsvDataset; EvMaterialize; EvHash;
              EvSave BaseRawDataset; EvConflict] ∧
    ∃ w'',
      retrieve_or_create Demo.impl RawDatasetCreator MetricCalls.new_d1
        MetricCalls.race_world = (Raise UniquenessConflict, w'').
Proof.
  eexists. split; [vm_compute; reflexivity|].
  split; [reflexivity|]. split; [reflexivity|]. split; [reflexivity|].
  eexists. vm_compute. reflexivity.
Qed.

Lemma remove_transformer_first_or_IndexError_witness :
  SklearnPipeline.remove_transformer "pca"
    [("scale", 1%nat); ("pca", 2%nat); ("pca", 3%nat)]
  = Ok [("scale", 1%nat); ("pca", 3%nat)] ∧
  SklearnPipeline.remove_transformer "nb"
    [("scale", 1%nat); ("pca", 2%nat); ("pca", 3%nat)]
  = Raise IndexError.
Proof.
  split.
  - apply (proj2 (remove_transformer_first_or_IndexError "pca"
                    [("scale", 1%nat); ("pca", 2%nat); ("pca", 3%nat)])
             [("scale", 1%nat)] 2%nat [("pca", 3%nat)]); [reflexivity|].
    cbn. intros [H|H]%elem_of_cons; [discriminate|]. by apply elem_of_nil in H.
  - apply (proj1 (remove_transformer_first_or_IndexError "nb"
                    [("scale", 1%nat); ("pca", 2%nat); ("pca", 3%nat)])).
    cbn. intros H. repeat (apply elem_of_cons in H as [H|H]; [discriminate|]).
    by apply elem_of_nil in H.
Defined.

(** ** The creators at work *)

(** The first request for d1 creates version 1. *)
Example first_request_creates :
  ∃ w1,
    retrieve_or_create Demo.impl RawDatasetCreator Scenario.request_d1
      Demo.empty_world = (Ok Scenario.stored_d1, w1) ∧
    store w1 = [Scenario.stored_d1].
Proof. eexists. split; vm_compute; reflexivity. Qed.

(** The same request with strict=False finds that row and leaves the store
    as it is. *)
Example second_request_retrieves :
  ∃ w2,
    retrieve_or_create Demo.impl RawDatasetCreator
      (<["strict" := VScalar (SBool false)]> Scenario.request_d1)
      (World Demo.classes [Scenario.stored_d1] [] [])
    = (Ok Scenario.stored_d1, w2) ∧
    store w2 = [Scenario.stored_d1].
Proof. eexists. split; vm_compute; reflexivity. Qed.

(** Without lookup arguments for the model, the chain of default
    arguments ends in DatasetCreator, whose [determine_filters] pops the
    registered name first. *)
Example metric_without_lookup_arguments :
  create_new Demo.impl MetricCreator Scenario.metric_bare Demo.empty_world
  = (Raise (KeyError "registered_name"), Demo.empty_world).
Proof. vm_compute. reflexivity. Qed.

(** * Further properties *)

(** ** SklearnPipeline: adding, removing and listing steps *)

Section SklearnSteps.

Context {T : Type}.
Implicit Types (steps : list (string * T)) (name : string).

Lemma remove_at_first name steps l1 t l2 :
  steps = l1 ++ (name, t) :: l2 →
  name ∉ List.map fst l1 →
  SklearnPipeline.remove_transformer name steps = Ok (l1 ++ l2).
Proof.
  intros Hs Hn. unfold SklearnPipeline.remove_transformer, SklearnPipeline.enumerate.
  destruct (indices_first name steps 0 l1 t l2 Hs Hn) as [more ->].
  subst steps. apply pop_middle.
Qed.

Lemma remove_absent name steps :
  name ∉ List.map fst steps →
  SklearnPipeline.remove_transformer name steps = Raise IndexError.
Proof.
  intros Hn. unfold SklearnPipeline.remove_transformer, SklearnPipeline.enumerate.
  by rewrite indices_absent.
Qed.

(** The first step called [name], when there is one. *)
Lemma first_named name steps :
  name ∈ List.map fst steps →
  ∃ l1 t l2, steps = l1 ++ (name, t) :: l2 ∧ name ∉ List.map fst l1.
Proof.
  induction steps as [|[n t] steps IH]; cbn [List.map fst].
  - by intros ?%elem_of_nil.
  - destruct (decide (n = name)) as [->|Hne].
    + intros _. exists [], t, steps. split; [done|]. apply not_elem_of_nil.
    + intros [?|Hin]%elem_of_cons; [congruence|].
      destruct (IH Hin) as (l1 & t' & l2 & -> & Hn).
      exists ((n, t) :: l1), t', l2. split; [done|].
      cbn. intros [?|?]%elem_of_cons; [congruence|done].
Qed.

(** X1. Appending a step under a name that no step carries and removing
    that name again gives back the steps as they were. *)
Theorem add_then_remove_restores name (t : T) steps :
  name ∉ List.map fst steps →
  SklearnPipeline.remove_transformer name
    (SklearnPipeline.add_transformer name t None steps) = Ok steps.
Proof.
  intros Hn. unfold SklearnPipeline.add_transformer.
  etransitivity; [by apply (remove_at_first name _ steps t [])|].
  by rewrite app_nil_r.
Qed.



(** X3. [remove_transformer] raises IndexError exactly when no step has
    the name, and raises nothing else; when it succeeds the pipeline is
    one step shorter, and if the step names were distinct the name is no
    longer among them. *)
Theorem remove_transformer_outcomes name steps :
  (SklearnPipeline.remove_transformer name steps = Raise IndexError ↔
     name ∉ List.map fst steps) ∧
  (∀ e, SklearnPipeline.remove_transformer name steps = Raise e → e = IndexError) ∧
  (∀ steps', SklearnPipeline.remove_transformer name steps = Ok steps' →
     length steps = S (length steps') ∧
     (NoDup (List.map fst steps) → name ∉ List.map fst steps')).
Proof.
  destruct (decide (name ∈ List.map fst steps)) as [Hin|Hn].
  - destruct (first_named name steps Hin) as (l1 & t & l2 & Hs & Hl1).
    rewrite (remove_at_first name steps l1 t l2 Hs Hl1).
    split; [split; [discriminate|done]|]. split; [discriminate|].
    intros steps' [= <-]. subst steps. split.
    + rewrite !length_app. cbn. lia.
    + rewrite !map_app. cbn [List.map fst].
      intros Hnd Hx. apply NoDup_app in Hnd as (_ & Hdis & Hnd2).
      apply NoDup_cons in Hnd2 as [Hnot _].
      apply elem_of_app in Hx as [Hx|Hx]; [done|].
      by apply Hnot.
  - rewrite (remove_absent name steps Hn).
    split; [done|]. split; [by intros e [= <-]|discriminate].
Qed.

End SklearnSteps.

Lemma add_then_remove_restores_witness :
  SklearnPipeline.remove_transformer "pca"
    (SklearnPipeline.add_transformer "pca" 2%nat None [("scale", 1%nat)])
  = Ok [("scale", 1%nat)].
Proof.
  apply (add_then_remove_restores "pca" 2%nat [("scale", 1%nat)]).
  cbn. intros [H|H]%elem_of_cons; [discriminate|]. by apply elem_of_nil in H.
Defined.

Lemma remove_transformer_outcomes_witness :
  length [("scale", 1%nat); ("pca", 2%nat)] = S (length [("scale", 1%nat)]) ∧
  "pca" ∉ List.map fst [("scale", 1%nat)].
Proof.
  destruct (remove_transformer_outcomes "pca" [("scale", 1%nat); ("pca", 2%nat)])
    as (_ & _ & H).
  destruct (H [("scale", 1%nat)] eq_refl) as [Hl Hn]. split; [exact Hl|].
  apply Hn. cbn. repeat constructor; set_solver.
Defined.

Section SklearnListing.

Context {T : Type}.
Variable class_name : T → string.
Variable feature_names_of : T → list string → list string.
Implicit Types (steps : list (string * T)) (name : string).

(** X4. The feature names of a pipeline are those of its steps applied
    one after the other: an empty pipeline returns its input, two runs of
    steps compose, and an appended step is applied last. *)
Theorem get_feature_names_composes steps1 steps2 name (t : T) names :
  SklearnPipeline.get_feature_names feature_names_of [] names = names ∧
  SklearnPipeline.get_feature_names feature_names_of (steps1 ++ steps2) names
  = SklearnPipeline.get_feature_names feature_names_of steps2
      (SklearnPipeline.get_feature_names feature_names_of steps1 names) ∧
  SklearnPipeline.get_feature_names feature_names_of
    (SklearnPipeline.add_transformer name t None steps1) names
  = feature_names_of t
      (SklearnPipeline.get_feature_names feature_names_of steps1 names).
Proof.
  unfold SklearnPipeline.get_feature_names, SklearnPipeline.add_transformer.
  split; [done|]. split; by rewrite fold_left_app.
Qed.

Lemma get_transformers_names steps :
  List.map fst (SklearnPipeline.get_transformers class_name steps)
  = List.map fst steps.
Proof.
  unfold SklearnPipeline.get_transformers. rewrite List.map_map.
  by apply List.map_ext.
Qed.

(** X5. Listing the transformers after removing a step is the same as
    removing that step from the listing, exception included; the listing
    has the step names in pipeline order. *)
Theorem get_transformers_after_remove name steps :
  SklearnPipeline.remove_transformer name
    (SklearnPipeline.get_transformers class_name steps)
  = match SklearnPipeline.remove_transformer name steps with
    | Ok steps' => Ok (SklearnPipeline.get_transformers class_name steps')
    | Raise e => Raise e
    end ∧
  List.map fst (SklearnPipeline.get_transformers class_name steps)
  = List.map fst steps.
Proof.
  split; [|apply get_transformers_names].
  destruct (decide (name ∈ List.map fst steps)) as [Hin|Hn].
  - destruct (first_named name steps Hin) as (l1 & t & l2 & -> & Hl1).
    rewrite (remove_at_first name _ l1 t l2 eq_refl Hl1).
    unfold SklearnPipeline.get_transformers. rewrite !List.map_app.
    cbn [List.map fst snd].
    apply (remove_at_first name _ _ (class_name t) _ eq_refl).
    fold (SklearnPipeline.get_transformers class_name l1).
    by rewrite get_transformers_names.
  - rewrite (remove_absent name steps Hn). apply remove_absent.
    by rewrite get_transformers_names.
Qed.

End SklearnListing.

(** ** DefaultPipeline: the ordered dictionary of steps *)

Section DefaultItems.

Context {T : Type}.
Implicit Types (d : list (string * T)) (name : string) (t : T).

Lemma setitem_present name t d :
  name ∈ List.map fst d →
  List.map fst (DefaultPipeline.setitem name t d) = List.map fst d.
Proof.
  induction d as [|[k v] d IH]; cbn [List.map fst DefaultPipeline.setitem].
  - by intros ?%elem_of_nil.
  - intros Hin. case_bool_decide as Hk; [done|]. cbn [List.map fst]. f_equal.
    apply IH. apply elem_of_cons in Hin as [?|?]; [congruence|done].
Qed.

Lemma setitem_fresh name t d :
  name ∉ List.map fst d → DefaultPipeline.setitem name t d = d ++ [(name, t)].
Proof.
  induction d as [|[k v] d IH]; cbn [List.map fst DefaultPipeline.setitem];
    [done|].
  intros Hn. rewrite bool_decide_eq_false_2.
  - cbn. f_equal. apply IH. intros ?. apply Hn. by right.
  - intros ->. apply Hn. left.
Qed.

Lemma getitem_setitem_eq name t d :
  DefaultPipeline.getitem name (DefaultPipeline.setitem name t d) = Ok t.
Proof.
  induction d as [|[k v] d IH]; cbn [DefaultPipeline.setitem].
  - cbn. by rewrite bool_decide_eq_true_2.
  - case_bool_decide as Hk; cbn [DefaultPipeline.getitem].
    + by rewrite bool_decide_eq_true_2.
    + by rewrite bool_decide_eq_false_2.
Qed.

Lemma getitem_setitem_ne n name t d :
  n ≠ name →
  DefaultPipeline.getitem n (DefaultPipeline.setitem name t d)
  = DefaultPipeline.getitem n d.
Proof.
  intros Hne. induction d as [|[k v] d IH]; cbn [DefaultPipeline.setitem].
  - cbn. by rewrite bool_decide_eq_false_2.
  - case_bool_decide as Hk; cbn [DefaultPipeline.getitem].
    + subst k. by rewrite !bool_decide_eq_false_2.
    + by rewrite IH.
Qed.

Lemma getitem_ok n d t :
  DefaultPipeline.getitem n d = Ok t → n ∈ List.map fst d.
Proof.
  induction d as [|[k v] d IH]; cbn [DefaultPipeline.getitem List.map fst];
    [discriminate|].
  case_bool_decide as Hk; [subst; intros _; left|].
  intros H. right. by apply IH.
Qed.

Lemma getitem_raise n d e :
  DefaultPipeline.getitem n d = Raise e → e = KeyError n ∧ n ∉ List.map fst d.
Proof.
  induction d as [|[k v] d IH]; cbn [DefaultPipeline.getitem List.map fst].
  - intros [= <-]. split; [done|apply not_elem_of_nil].
  - case_bool_decide as Hk; [discriminate|].
    intros H. destruct (IH H) as [-> Hn]. split; [done|].
    intros [?|?]%elem_of_cons; [congruence|done].
Qed.

(** X6. [DefaultPipeline.add_transformer]: the step is then found under
    its name and every other name reads as before; a name already in the
    pipeline keeps its place in the order, a new one goes last; distinct
    keys stay distinct. *)
Theorem add_transformer_binds name t d :
  DefaultPipeline.getitem name (DefaultPipeline.add_transformer name t d) = Ok t ∧
  (∀ n, n ≠ name →
     DefaultPipeline.getitem n (DefaultPipeline.add_transformer name t d)
     = DefaultPipeline.getitem n d) ∧
  (name ∈ List.map fst d →
     List.map fst (DefaultPipeline.add_transformer name t d) = List.map fst d) ∧
  (name ∉ List.map fst d →
     DefaultPipeline.add_transformer name t d = d ++ [(name, t)]) ∧
  (NoDup (List.map fst d) →
     NoDup (List.map fst (DefaultPipeline.add_transformer name t d))).
Proof.
  unfold DefaultPipeline.add_transformer.
  split; [apply getitem_setitem_eq|].
  split; [intros n Hn; by apply getitem_setitem_ne|].
  split; [apply setitem_present|]. split; [apply setitem_fresh|].
  intros Hnd. destruct (decide (name ∈ List.map fst d)) as [Hin|Hn].
  - by rewrite setitem_present.
  - rewrite setitem_fresh by done. rewrite map_app. cbn.
    apply NoDup_app. split; [done|]. split; [|apply NoDup_singleton].
    intros x Hx Hx'. apply elem_of_cons in Hx' as [->|Hx']; [done|].
    by apply elem_of_nil in Hx'.
Qed.

End DefaultItems.

Section DefaultRemoval.

Context {T : Type}.
Implicit Types (d : list (string * T)) (name : string) (t : T).

Lemma delitem_absent name d :
  name ∉ List.map fst d → DefaultPipeline.delitem name d = Raise (KeyError name).
Proof.
  induction d as [|[k v] d IH]; cbn [List.map fst DefaultPipeline.delitem];
    [done|].
  intros Hn. rewrite bool_decide_eq_false_2.
  - rewrite IH; [done|]. intros ?. apply Hn. by right.
  - intros ->. apply Hn. left.
Qed.

Lemma delitem_at_first name d l1 t l2 :
  d = l1 ++ (name, t) :: l2 →
  name ∉ List.map fst l1 →
  DefaultPipeline.delitem name d = Ok (l1 ++ l2).
Proof.
  intros ->. induction l1 as [|[k v] l1 IH]; cbn [app DefaultPipeline.delitem].
  - intros _. by rewrite bool_decide_eq_true_2.
  - intros Hn. rewrite bool_decide_eq_false_2.
    + rewrite IH; [done|]. intros ?. apply Hn. cbn. by right.
    + intros ->. apply Hn. cbn. left.
Qed.

Lemma getitem_app_ne n l1 name t l2 :
  n ≠ name →
  DefaultPipeline.getitem n (l1 ++ (name, t) :: l2)
  = DefaultPipeline.getitem n (l1 ++ l2).
Proof.
  intros Hne. induction l1 as [|[k v] l1 IH]; cbn [app DefaultPipeline.getitem].
  - by rewrite bool_decide_eq_false_2.
  - by rewrite IH.
Qed.

(** X7. [DefaultPipeline.remove_transformer] raises KeyError for a name
    that is not in the pipeline and nothing else; when it succeeds one
    step is gone, every other name reads as before, and with distinct
    keys the name is no longer bound.  Removing a step that was just
    added under a new name gives back the pipeline. *)
Theorem remove_transformer_unbinds name d :
  (name ∉ List.map fst d →
     DefaultPipeline.remove_transformer name d = Raise (KeyError name)) ∧
  (∀ e, DefaultPipeline.remove_transformer name d = Raise e →
     e = KeyError name ∧ name ∉ List.map fst d) ∧
  (∀ d', DefaultPipeline.remove_transformer name d = Ok d' →
     length d = S (length d') ∧
     (∀ n, n ≠ name → DefaultPipeline.getitem n d' = DefaultPipeline.getitem n d) ∧
     (NoDup (List.map fst d) →
        DefaultPipeline.getitem name d' = Raise (KeyError name) ∧
        NoDup (List.map fst d'))) ∧
  (∀ t, name ∉ List.map fst d →
     DefaultPipeline.remove_transformer name
       (DefaultPipeline.add_transformer name t d) = Ok d).
Proof.
  unfold DefaultPipeline.remove_transformer, DefaultPipeline.add_transformer.
  split; [apply delitem_absent|].
  destruct (decide (name ∈ List.map fst d)) as [Hin|Hn].
  - destruct (first_named name d Hin) as (l1 & t & l2 & Hd & Hl1).
    rewrite (delitem_at_first name d l1 t l2 Hd Hl1). subst d.
    split; [discriminate|]. split.
    + intros d' [= <-]. split; [rewrite !length_app; cbn; lia|].
      split; [intros n Hn; symmetry; by apply getitem_app_ne|].
      rewrite !map_app. cbn [List.map fst]. intros Hnd.
      apply NoDup_app in Hnd as (Hnd1 & Hdis & Hnd2).
      apply NoDup_cons in Hnd2 as [Hnot Hnd2]. split.
      * destruct (DefaultPipeline.getitem name (l1 ++ l2)) as [t'|e] eqn:Hg.
        -- apply getitem_ok in Hg. rewrite map_app in Hg.
           apply elem_of_app in Hg as [?|?]; done.
        -- by apply getitem_raise in Hg as [-> _].
      * apply NoDup_app. split; [done|]. split; [|done].
        intros x Hx1 Hx2. apply (Hdis x Hx1). by right.
    + intros t' Hn. by destruct Hn.
  - rewrite (delitem_absent name d Hn). split; [by intros e [= <-]|].
    split; [discriminate|].
    intros t _. rewrite setitem_fresh by done.
    rewrite (delitem_at_first name _ d t [] eq_refl Hn). by rewrite app_nil_r.
Qed.

End DefaultRemoval.

Section DefaultRuns.

Context {T X P : Type}.
Variable tr_fit_transform : T → X → option (T * X).
Variable tr_transform : T → X → option X.
Variable tr_get_params : T → P.
Variable tr_set_params : T → P → option T.
Implicit Types (d : list (string * T)) (x : X).

(** X8. [fit] and [fit_transform] train the pipeline alike: they leave
    the same transformers behind, fail on the same inputs with the same
    exception, and keep the step names and their order. *)
Theorem fit_as_fit_transform d x :
  fst (DefaultPipeline.fit tr_fit_transform d x)
  = fst (DefaultPipeline.fit_transform tr_fit_transform d x) ∧
  snd (DefaultPipeline.fit tr_fit_transform d x)
  = match snd (DefaultPipeline.fit_transform tr_fit_transform d x) with
    | Ok _ => Ok tt
    | Raise e => Raise e
    end ∧
  List.map fst (fst (DefaultPipeline.fit tr_fit_transform d x)) = List.map fst d.
Proof.
  revert x. induction d as [|[k t] d IH]; intros x; [done|].
  cbn [DefaultPipeline.fit DefaultPipeline.fit_transform].
  destruct (tr_fit_transform t x) as [[t' x']|]; [|done].
  destruct (IH x') as (H1 & H2 & H3).
  destruct (DefaultPipeline.fit tr_fit_transform d x') as [d1 r1].
  destruct (DefaultPipeline.fit_transform tr_fit_transform d x') as [d2 r2].
  simpl in *. subst d1 r1. by rewrite H3.
Qed.

(** X9. [transform] of an empty pipeline returns its input, and the
    transform of two runs of steps is the second applied to the result of
    the first, an exception of the first run ending the whole. *)
Theorem transform_composes d1 d2 x :
  DefaultPipeline.transform tr_transform [] x = Ok x ∧
  DefaultPipeline.transform tr_transform (d1 ++ d2) x
  = match DefaultPipeline.transform tr_transform d1 x with
    | Ok x' => DefaultPipeline.transform tr_transform d2 x'
    | Raise e => Raise e
    end.
Proof.
  split; [done|]. revert x.
  induction d1 as [|[k t] d1 IH]; intros x; [done|].
  cbn [app DefaultPipeline.transform].
  destruct (tr_transform t x); [apply IH|done].
Qed.

(** X10. [set_params] keeps the step names and their order whatever
    happens; it returns only if every name in [params] is a step, and the
    KeyError it raises names an entry of [params] that is not a step. *)
Theorem set_params_names ps d :
  List.map fst (fst (DefaultPipeline.set_params tr_set_params ps d))
  = List.map fst d ∧
  (snd (DefaultPipeline.set_params tr_set_params ps d) = Ok tt →
     ∀ s, s ∈ List.map fst ps → s ∈ List.map fst d) ∧
  (∀ s, snd (DefaultPipeline.set_params tr_set_params ps d) = Raise (KeyError s) →
     s ∈ List.map fst ps ∧ s ∉ List.map fst d).
Proof.
  revert d. induction ps as [|[step param] ps IH]; intros d.
  { cbn. split; [done|]. split; [by intros _ s ?%elem_of_nil|discriminate]. }
  cbn [DefaultPipeline.set_params List.map fst].
  destruct (DefaultPipeline.getitem step d) as [t|e] eqn:Hg.
  - pose proof (getitem_ok _ _ _ Hg) as Hin.
    destruct (tr_set_params t param) as [t'|].
    + destruct (IH (DefaultPipeline.setitem step t' d)) as (H1 & H2 & H3).
      rewrite setitem_present in H1, H2, H3 by done.
      split; [done|]. split.
      * intros Hok s [->|Hs]%elem_of_cons; [done|]. by apply H2.
      * intros s Hr. destruct (H3 s Hr). split; [by right|done].
    + cbn. split; [done|]. split; discriminate.
  - apply getitem_raise in Hg as [-> Hn]. cbn.
    split; [done|]. split; [discriminate|].
    intros s [= <-]. split; [left|done].
Qed.

Lemma get_params_fold d (acc : gmap string P) :
  dom (fold_left (λ ps st, <[st.1 := tr_get_params st.2]> ps) d acc)
  = dom acc ∪ list_to_set (List.map fst d) ∧
  (∀ k, k ∉ List.map fst d →
     fold_left (λ ps st, <[st.1 := tr_get_params st.2]> ps) d acc !! k = acc !! k) ∧
  (NoDup (List.map fst d) → ∀ k t, (k, t) ∈ d →
     fold_left (λ ps st, <[st.1 := tr_get_params st.2]> ps) d acc !! k
     = Some (tr_get_params t)).
Proof.
  revert acc. induction d as [|[k0 t0] d IH]; intros acc.
  { cbn. split; [set_solver|]. split; [done|]. by intros _ k t ?%elem_of_nil. }
  cbn [fold_left List.map fst snd].
  destruct (IH (<[k0 := tr_get_params t0]> acc)) as (H1 & H2 & H3).
  split; [rewrite H1, dom_insert_L; set_solver|]. split.
  - intros k Hk. rewrite H2 by set_solver. apply lookup_insert_ne. set_solver.
  - intros [Hnot Hnd]%NoDup_cons k t [[= -> ->]|Hin]%elem_of_cons.
    + rewrite H2 by done. apply lookup_insert_eq.
    + by apply H3.
Qed.

(** X11. [get_params] has one entry per step name, and with distinct
    step names each entry holds the parameters of the transformer of that
    step. *)
Theorem get_params_per_step d :
  dom (DefaultPipeline.get_params tr_get_params d) = list_to_set (List.map fst d) ∧
  (NoDup (List.map fst d) → ∀ k t, (k, t) ∈ d →
     DefaultPipeline.get_params tr_get_params d !! k = Some (tr_get_params t)).
Proof.
  unfold DefaultPipeline.get_params.
  destruct (get_params_fold d ∅) as (H1 & _ & H3).
  split; [rewrite H1; set_solver|done].
Qed.

End DefaultRuns.

(** ** determine_filters: what it reads and what it returns *)

(** X12. [determine_filters] is stateless for every creator: registry,
    store and pending writes are as before, the calls it makes save
    nothing, the only exceptions are those of a lookup, and the table it
    returns is the creator's own. *)
Theorem determine_filters_only_reads (impl : implementation) (self : creator)
    (kw : kwargs) (w : world) (res : result (table * filters)) (w' : world) :
  determine_filters impl self kw w = (res, w') →
  registry w' = registry w ∧ store w' = store w ∧ racers w' = racers w ∧
  (∃ evs, log w' = log w ++ evs ∧ Forall (λ e, is_write e = false) evs) ∧
  (∀ e, res = Raise e → lookup_error e = true) ∧
  (∀ cls f, res = Ok (cls, f) → cls = table_of self).
Proof.
  intros H.
  pose proof (determine_filters_quiet impl self kw w res w' H)
    as [(Hr & Hs & Hc & Hl) HQ].
  repeat split; try done.
  intros cls f ->. exact (determine_filters_table impl self kw w _ _ H).
Qed.

Lemma determine_filters_only_reads_witness :
  store (determine_filters Demo.impl ModelCreator Calls.model_loose
           Demo.world_models).2 = store Demo.world_models.
Proof.
  destruct (determine_filters Demo.impl ModelCreator Calls.model_loose
              Demo.world_models) as [res w'] eqn:H.
  exact (proj1 (proj2 (determine_filters_only_reads Demo.impl ModelCreator
                         Calls.model_loose Demo.world_models res w' H))).
Defined.









(** ** Supplying the dependency *)







(** ** The dependency chain *)

Lemma dependency_is_stored impl dep kw w d w' :
  retrieve_dependency impl (determine_filters impl dep) kw w = (Ok d, w') →
  ∃ p, p ∈ store w ∧ p_table p = table_of dep ∧ load impl p = Some d.
Proof.
  intros H. apply retrieve_dependency_found in H
    as (cls & f & w1 & p & Hd & Hin & Hm & Hl).
  pose proof (determine_filters_table impl dep kw w _ _ Hd) as Ht.
  pose proof (determine_filters_quiet impl dep kw w _ _ Hd) as [(_ & Hs & _) _].
  cbn in Ht. subst cls. rewrite Hs in Hin.
  apply row_matches_table in Hm. by exists p.
Qed.

(** X15. Each creator resolves its dependency in the table of the
    creator one link down the chain: what [retrieve_dataset],
    [retrieve_pipeline] and [retrieve_model] return is a stored row of
    that table, loaded. *)
Theorem dependency_from_adjacent_table (impl : implementation) (kw : kwargs)
    (w : world) (d : persistable) (w' : world) :
  (DatasetPipelineCreator_retrieve_dataset impl kw w = (Ok d, w') →
     ∃ p, p ∈ store w ∧ p_table p = BaseRawDataset ∧ load impl p = Some d) ∧
  (DatasetCreator_retrieve_pipeline impl kw w = (Ok d, w') →
     ∃ p, p ∈ store w ∧ p_table p = BaseDatasetPipeline ∧ load impl p = Some d) ∧
  (PipelineCreator_retrieve_dataset impl kw w = (Ok d, w') →
     ∃ p, p ∈ store w ∧ p_table p = BaseProcessedDataset ∧ load impl p = Some d) ∧
  (ModelCreator_retrieve_pipeline impl kw w = (Ok d, w') →
     ∃ p, p ∈ store w ∧ p_table p = BaseProductionPipeline ∧ load impl p = Some d) ∧
  (MetricCreator_retrieve_model impl kw w = (Ok d, w') →
     ∃ p, p ∈ store w ∧ p_table p = BaseModel ∧ load impl p = Some d).
Proof.
  repeat split; intros H.
  - apply (dependency_is_stored impl RawDatasetCreator kw w d w' H).
  - apply (dependency_is_stored impl DatasetPipelineCreator kw w d w' H).
  - apply (dependency_is_stored impl DatasetCreator kw w d w' H).
  - apply (dependency_is_stored impl PipelineCreator kw w d w' H).
  - apply (dependency_is_stored impl ModelCreator kw w d w' H).
Qed.

Lemma dependency_from_adjacent_table_witness :
  ∃ p, p ∈ store Demo.world_models ∧ p_table p = BaseModel ∧
       load Demo.impl p = Some Demo.model_v2.
Proof.
  apply (proj2 (proj2 (proj2 (proj2
           (dependency_from_adjacent_table Demo.impl Calls.model_by_version
              Demo.world_models Demo.model_v2
              (emit EvLoad (emit (EvQuery BaseModel) Demo.world_models))))))).
  reflexivity.
Defined.

(** X16. [create_new] needs a registered class: without a
    [registered_name] argument, or with one the registry does not know
    while the dependency object is supplied, it raises TypeError before
    anything is called, and the world is untouched. *)
Theorem create_new_unregistered (impl : implementation) (self : creator)
    (kw : kwargs) (w : world) :
  (kw !! "registered_name" = None →
     create_new impl self kw w = (Raise TypeError, w)) ∧
  (∀ s, kw !! "registered_name" = Some (VScalar (SStr s)) →
     registry w !! s = None →
     (∀ k, dependency_key self = Some k → is_None (arg k VNone kw) = false) →
     create_new impl self kw w = (Raise TypeError, w)).
Proof.
  split.
  - intros Hn. destruct self; cbn [create_new];
      unfold RawDatasetCreator_create_new, DatasetPipelineCreator_create_new,
        DatasetCreator_create_new, PipelineCreator_create_new,
        ModelCreator_create_new, MetricCreator_create_new;
      by rewrite Hn.
  - intros s Hs Hreg Hd.
    destruct self; cbn [create_new dependency_key] in *;
      unfold RawDatasetCreator_create_new, DatasetPipelineCreator_create_new,
        DatasetCreator_create_new, PipelineCreator_create_new,
        ModelCreator_create_new, MetricCreator_create_new;
      rewrite Hs; cbv zeta; rewrite ?(Hd _ eq_refl);
      unfold bind, ret, registry_get, Registry.get, Registry.get_from_registry;
      by rewrite Hreg.
Qed.

Lemma create_new_unregistered_witness :
  create_new Demo.impl RawDatasetCreator
    {[ "registered_name" := Demo.str "Unknown"; "name" := Demo.str "d1" ]}
    Demo.empty_world = (Raise TypeError, Demo.empty_world).
Proof.
  apply (proj2 (create_new_unregistered Demo.impl RawDatasetCreator _
                  Demo.empty_world) "Unknown"); [reflexivity|reflexivity|].
  intros k Hk. discriminate Hk.
Defined.

(** ** What is never stored *)

Lemma create_new_unresolved impl self k dep kw w :
  dependency_key self = Some k →
  dependency_of self = Some dep →
  is_None (arg k VNone kw) = true →
  (∀ x, x ∈ store w → p_table x ≠ table_of dep) →
  ∃ e w', create_new impl self kw w = (Raise e, w') ∧ store w' = store w.
Proof.
  intros Hk Hdep Hd Hno.
  destruct self; cbn in Hk, Hdep; try discriminate;
    injection Hk as <-; injection Hdep as <-;
    cbn [create_new];
    unfold DatasetPipelineCreator_create_new, DatasetCreator_create_new,
      PipelineCreator_create_new, ModelCreator_create_new,
      MetricCreator_create_new, pop_default,
      DatasetPipelineCreator_retrieve_dataset, DatasetCreator_retrieve_pipeline,
      PipelineCreator_retrieve_dataset, ModelCreator_retrieve_pipeline,
      MetricCreator_retrieve_model;
    (destruct (kw !! "registered_name") as [rn|]; [|by exists TypeError, w]);
    cbv zeta; rewrite Hd;
    (destruct (default (VDict ∅) _) as [s|o|mk]; [by exists TypeError, w..|]);
    match type of Hno with
    | ∀ x, _ → _ ≠ table_of ?dep =>
        destruct (retrieve_dependency_empty_table impl dep mk w Hno)
          as (e & w' & H & Hs);
        exists e, w'; split; [|done];
        unfold bind, unpack, ret; cbn [determine_filters] in H; by rewrite H
    end.
Qed.

(** X17. Without the dependency object and with no row in the
    dependency's table, [retrieve_or_create] stores nothing: the store is
    as before, and a record it returns is a row that was already stored,
    loaded. *)
Theorem no_dependency_nothing_stored (impl : implementation) (self : creator)
    (k : string) (dep : creator) (kw : kwargs) (w : world)
    (res : result persistable) (w' : world) :
  dependency_key self = Some k →
  dependency_of self = Some dep →
  is_None (arg k VNone kw) = true →
  (∀ x, x ∈ store w → p_table x ≠ table_of dep) →
  retrieve_or_create impl self kw w = (res, w') →
  store w' = store w ∧
  ∀ r, res = Ok r → ∃ p, p ∈ store w ∧ load impl p = Some r.
Proof.
  intros Hk Hdep Hd Hno H. unfold retrieve_or_create in H.
  apply bind_inv in H as [(e & Hf & ->)|([cls f] & w1 & Hf & H)].
  { apply determine_filters_quiet in Hf as [(_ & Hs & _) _].
    split; [done|discriminate]. }
  apply determine_filters_quiet in Hf as [(_ & Hs & _) _].
  rewrite (bind_ok _ _ _ _ _ (retrieve_runs cls f w1)) in H.
  destruct (Store.first _) as [p|] eqn:Hp.
  - rewrite call_runs in H. injection H as <- <-. split; [done|].
    apply first_is_newest in Hp as [Hin _].
    apply elem_of_where in Hin as [Hin _]. rewrite Hs in Hin.
    intros r Hr. exists p. split; [done|]. by destruct (load impl p); inversion Hr.
  - destruct (create_new_unresolved impl self k dep kw
                (emit (EvQuery cls) w1) Hk Hdep Hd) as (e & w2 & Hc & Hs2).
    { cbn [store emit]. by rewrite Hs. }
    rewrite Hc in H. injection H as <- <-. split; [|discriminate].
    by rewrite Hs2.
Qed.

Lemma no_dependency_nothing_stored_witness :
  store (retrieve_or_create Demo.impl MetricCreator Scenario.metric_bare
           Demo.empty_world).2 = store Demo.empty_world.
Proof.
  destruct (retrieve_or_create Demo.impl MetricCreator Scenario.metric_bare
              Demo.empty_world) as [res w'] eqn:H.
  refine (proj1 (no_dependency_nothing_stored Demo.impl MetricCreator "model"
                   ModelCreator Scenario.metric_bare Demo.empty_world res w'
                   eq_refl eq_refl eq_refl _ H)).
  intros x Hx. by apply elem_of_nil in Hx.
Defined.

(** ** Lookups by key *)

Lemma columns_name r : Store.columns r !! "name" = Some (p_name r).
Proof.
  unfold Store.columns. destruct (p_table r); cbn [Store.dependency_column];
    rewrite ?lookup_insert_ne by done; by rewrite lookup_insert_eq.
Qed.

Lemma columns_version r : Store.columns r !! "version" = Some (SInt (p_version r)).
Proof.
  unfold Store.columns. destruct (p_table r); cbn [Store.dependency_column];
    rewrite ?lookup_insert_ne by done; by rewrite lookup_insert_eq.
Qed.

Lemma columns_model_id r :
  p_table r = BaseMetric →
  Store.columns r !! "model_id" = Some (p_dependency_id r).
Proof.
  intros Ht. unfold Store.columns. rewrite Ht. cbn [Store.dependency_column].
  by rewrite lookup_insert_eq.
Qed.

(** A row matches when it is in the table and every filter is a scalar
    equal to the row's column of that name. *)
Lemma row_matches_iff cls (f : filters) r :
  Store.row_matches cls f r = true ↔
  p_table r = cls ∧
  ∀ k v, f !! k = Some v → ∃ s, v = VScalar s ∧ Store.columns r !! k = Some s.
Proof.
  unfold Store.row_matches. rewrite andb_true_iff, bool_decide_eq_true.
  rewrite forallb_forall. split; intros [Ht H]; (split; [done|]).
  - intros k v Hkv.
    specialize (H (k, v)). unfold Store.condition in H. cbn [fst snd] in H.
    assert (In (k, v) (map_to_list f)) as Hin
      by (apply list_elem_of_In; by apply elem_of_map_to_list).
    specialize (H Hin).
    destruct (Store.columns r !! k) as [c|]; [|done].
    destruct v as [s| |]; try done.
    apply bool_decide_eq_true in H. subst. by exists s.
  - intros [k v] Hin. apply list_elem_of_In, elem_of_map_to_list in Hin.
    destruct (H k v Hin) as (s & -> & Hc).
    unfold Store.condition. cbn [fst snd]. rewrite Hc.
    by apply bool_decide_eq_true.
Qed.

Lemma version_branch impl self kw w :
  self ≠ MetricCreator →
  is_None (arg "version" VNone kw) = false →
  determine_filters impl self kw w
  = (Ok (table_of self,
         {[ "name" := arg "name" (VScalar (SStr "")) kw;
            "version" := arg "version" VNone kw ]}), w).
Proof.
  intros Hs Hv.
  destruct self; try done; cbn [determine_filters table_of];
    unfold RawDatasetCreator_determine_filters,
      DatasetPipelineCreator_determine_filters, DatasetCreator_determine_filters,
      PipelineCreator_determine_filters, ModelCreator_determine_filters;
    cbv zeta; by rewrite Hv.
Qed.

(** X18. Asking for a stored name and version gives that version back:
    for every creator but MetricCreator, [retrieve_or_create] with an
    explicit version under which a row of that name is stored returns such
    a row, loaded, after one query; it constructs nothing, so the class
    need not even be registered. *)
Theorem explicit_version_is_returned (impl : implementation) (self : creator)
    (kw : kwargs) (w : world) (n : scalar) (v : Z) (p0 : persistable) :
  self ≠ MetricCreator →
  arg "name" (VScalar (SStr "")) kw = VScalar n →
  arg "version" VNone kw = VScalar (SInt v) →
  p0 ∈ store w → p_table p0 = table_of self → p_name p0 = n → p_version p0 = v →
  ∃ p, p ∈ store w ∧ p_table p = table_of self ∧ p_name p = n ∧ p_version p = v ∧
       retrieve_or_create impl self kw w
       = (match load impl p with
          | Some p' => Ok p'
          | None => Raise ImplementationError
          end, emit EvLoad (emit (EvQuery (table_of self)) w)).
Proof.
  intros Hs Hn Hv Hin Ht Hpn Hpv.
  assert (is_None (arg "version" VNone kw) = false) as Hv' by by rewrite Hv.
  pose proof (version_branch impl self kw w Hs Hv') as Hd. rewrite Hn, Hv in Hd.
  set (f := ({[ "name" := VScalar n; "version" := VScalar (SInt v) ]} : filters)) in *.
  assert (∀ r, Store.row_matches (table_of self) f r = true ↔
               p_table r = table_of self ∧ p_name r = n ∧ p_version r = v) as Hm.
  { intros r. rewrite row_matches_iff. split.
    - intros [Hr H]. split; [done|].
      destruct (H "name" (VScalar n)) as (s & [= <-] & Hc); [done|].
      destruct (H "version" (VScalar (SInt v))) as (s' & [= <-] & Hc'); [done|].
      rewrite columns_name in Hc. rewrite columns_version in Hc'.
      split; congruence.
    - intros (Hr & Hrn & Hrv). split; [done|]. intros k x Hk. subst f.
      apply lookup_insert_Some in Hk as [[<- <-]|[_ Hk]].
      + exists n. by rewrite columns_name, Hrn.
      + apply lookup_singleton_Some in Hk as [<- <-].
        exists (SInt v). by rewrite columns_version, Hrv. }
  unfold retrieve_or_create. rewrite (bind_ok _ _ _ _ _ Hd).
  rewrite (bind_ok _ _ _ _ _ (retrieve_runs (table_of self) f w)).
  destruct (Store.first _) as [p|] eqn:Hp.
  - apply first_is_newest in Hp as [Hp _].
    apply elem_of_where in Hp as [Hp Hpm]. apply Hm in Hpm as (? & ? & ?).
    exists p. repeat split; try done. apply call_runs.
  - apply first_none in Hp.
    assert (p0 ∈ Store.where_ (table_of self) f (store w)) as Hx.
    { apply elem_of_where. split; [done|]. by apply Hm. }
    rewrite Hp in Hx. by apply elem_of_nil in Hx.
Qed.

Lemma explicit_version_is_returned_witness :
  ∃ p, p ∈ store Demo.world_models ∧ p_table p = BaseModel ∧
       p_name p = SStr "m" ∧ p_version p = 2 ∧
       retrieve_or_create Demo.impl ModelCreator Calls.model_by_version
         Demo.world_models
       = (match load Demo.impl p with
          | Some p' => Ok p'
          | None => Raise ImplementationError
          end, emit EvLoad (emit (EvQuery BaseModel) Demo.world_models)).
Proof.
  apply (explicit_version_is_returned Demo.impl ModelCreator
           Calls.model_by_version Demo.world_models (SStr "m") 2 Demo.model_v2);
    [discriminate|reflexivity|reflexivity| |reflexivity..].
  right. left.
Defined.

(** X19. A metric asked for by name and model_id is a metric of that
    model: when such a row is stored, [MetricCreator.retrieve_or_create]
    returns a stored metric with that name and that model_id, loaded,
    after one query and without constructing anything. *)
Theorem metric_of_the_model (impl : implementation) (kw : kwargs) (w : world)
    (n m : scalar) (p0 : persistable) :
  arg "name" VNone kw = VScalar n → n ≠ SNone →
  arg "model_id" VNone kw = VScalar m → m ≠ SNone →
  p0 ∈ store w → p_table p0 = BaseMetric → p_name p0 = n →
  p_dependency_id p0 = m →
  ∃ p, p ∈ store w ∧ p_table p = BaseMetric ∧ p_name p = n ∧
       p_dependency_id p = m ∧ p_version p0 ≤ p_version p ∧
       retrieve_or_create impl MetricCreator kw w
       = (match load impl p with
          | Some p' => Ok p'
          | None => Raise ImplementationError
          end, emit EvLoad (emit (EvQuery BaseMetric) w)).
Proof.
  intros Hn Hn0 Hm Hm0 Hin Ht Hpn Hpm.
  set (f := ({[ "name" := VScalar n; "model_id" := VScalar m ]} : filters)).
  assert (determine_filters impl MetricCreator kw w = (Ok (BaseMetric, f), w))
    as Hd.
  { cbn [determine_filters]. unfold MetricCreator_determine_filters. cbv zeta.
    rewrite Hn, Hm. by destruct n, m. }
  assert (∀ r, Store.row_matches BaseMetric f r = true ↔
               p_table r = BaseMetric ∧ p_name r = n ∧ p_dependency_id r = m)
    as Hrm.
  { intros r. rewrite row_matches_iff. split.
    - intros [Hr H]. split; [done|].
      destruct (H "name" (VScalar n)) as (s & [= <-] & Hc); [done|].
      destruct (H "model_id" (VScalar m)) as (s' & [= <-] & Hc'); [done|].
      rewrite columns_name in Hc. rewrite columns_model_id in Hc' by done.
      split; congruence.
    - intros (Hr & Hrn & Hrv). split; [done|]. intros k x Hk. subst f.
      apply lookup_insert_Some in Hk as [[<- <-]|[_ Hk]].
      + exists n. by rewrite columns_name, Hrn.
      + apply lookup_singleton_Some in Hk as [<- <-].
        exists m. by rewrite columns_model_id, Hrv. }
  unfold retrieve_or_create. rewrite (bind_ok _ _ _ _ _ Hd).
  rewrite (bind_ok _ _ _ _ _ (retrieve_runs BaseMetric f w)).
  assert (p0 ∈ Store.where_ BaseMetric f (store w)) as Hx.
  { apply elem_of_where. split; [done|]. by apply Hrm. }
  destruct (Store.first _) as [p|] eqn:Hp.
  - apply first_is_newest in Hp as [Hp Hmax].
    specialize (Hmax p0 Hx).
    apply elem_of_where in Hp as [Hp Hpm']. apply Hrm in Hpm' as (? & ? & ?).
    exists p. repeat split; try done. apply call_runs.
  - apply first_none in Hp. rewrite Hp in Hx. by apply elem_of_nil in Hx.
Qed.

(** ** The registry *)

(** X20. A registration that passes the guard binds the class: [get]
    then returns it, [is_registered] holds of its name, every other name
    reads as before, and nothing but the registry changes.
    [is_registered] holds exactly of the names [get] finds. *)
Theorem registration_binds (cls : Registry.metaclass) (name : string)
    (bases : list string) (attrs : list (string * scalar)) (w : world) :
  mc_name_free cls w →
  ∃ w',
    Registry.__new__ cls name bases attrs w = (Ok (Class name bases attrs), w') ∧
    Registry.get name w' = Some (Class name bases attrs) ∧
    Registry.is_registered name w' = true ∧
    (∀ n, n ≠ name →
       Registry.get n w' = Registry.get n w ∧
       Registry.is_registered n w' = Registry.is_registered n w) ∧
    (∀ n, Registry.is_registered n w' = true ↔ Registry.get n w' ≠ None) ∧
    store w' = store w ∧ racers w' = racers w ∧ log w' = log w.
Proof.
  intros Hfree. eexists. split; [by apply new_binds|].
  unfold Registry.get, Registry.get_from_registry, Registry.is_registered.
  cbn [registry set_registry c_name store racers log].
  split; [apply lookup_insert_eq|].
  split; [apply bool_decide_eq_true_2; set_solver|]. split.
  - intros n Hn. rewrite lookup_insert_ne by done. split; [done|].
    apply bool_decide_ext. rewrite dom_insert_L. set_solver.
  - split; [|done]. intros n. rewrite bool_decide_eq_true, elem_of_dom.
    rewrite <- not_eq_None_Some. done.
Qed.

(** X21. The guard looks up the metaclass's own name.  Once a class of
    that name is registered, which the guard allows, every later
    registration through that metaclass raises ValueError and leaves the
    world as it is, whatever the name of the new class. *)
Theorem registration_locked (cls : Registry.metaclass) (bases : list string)
    (attrs : list (string * scalar)) (w : world) :
  mc_name_free cls w →
  ∃ w',
    Registry.__new__ cls (Registry.mc_name cls) bases attrs w
    = (Ok (Class (Registry.mc_name cls) bases attrs), w') ∧
    ∀ name bases' attrs',
      Registry.__new__ cls name bases' attrs' w' = (Raise ValueError, w').
Proof.
  intros Hfree. eexists. split; [by apply new_binds|].
  intros name bases' attrs'. apply new_guard.
  cbn [registry set_registry c_name]. rewrite dom_insert_L. set_solver.
Qed.

Lemma metric_of_the_model_witness :
  ∃ p, p ∈ store MetricRows.world_metrics ∧ p_table p = BaseMetric ∧
       p_name p = SStr "accuracy" ∧ p_dependency_id p = SInt 7.
Proof.
  destruct (metric_of_the_model Demo.impl Calls.metric_by_model
              MetricRows.world_metrics (SStr "accuracy") (SInt 7)
              MetricRows.accuracy_v1)
    as (p & H1 & H2 & H3 & H4 & _);
    [reflexivity|discriminate|reflexivity|discriminate| |reflexivity..|].
  - right. left.
  - by exists p.
Defined.

Lemma registration_binds_witness :
  ∃ w',
    Registry.__new__ Registry.MetaRegistry "NewModel" ["BaseModel"] []
      Demo.empty_world = (Ok (Class "NewModel" ["BaseModel"] []), w') ∧
    Registry.get "NewModel" w' = Some (Class "NewModel" ["BaseModel"] []).
Proof.
  destruct (registration_binds Registry.MetaRegistry "NewModel" ["BaseModel"] []
              Demo.empty_world) as (w' & H1 & H2 & _).
  - apply not_elem_of_dom. reflexivity.
  - by exists w'.
Defined.

Lemma registration_locked_witness :
  ∃ w',
    Registry.__new__ Registry.MetaRegistry "MetaRegistry" [] []
      Demo.empty_world = (Ok (Class "MetaRegistry" [] []), w') ∧
    Registry.__new__ Registry.MetaRegistry "NewModel" ["BaseModel"] [] w'
    = (Raise ValueError, w').
Proof.
  destruct (registration_locked Registry.MetaRegistry [] [] Demo.empty_world)
    as (w' & H1 & H2).
  - apply not_elem_of_dom. reflexivity.
  - exists w'. split; [exact H1|apply H2].
Defined.
